(** * A webhook ingestion and query service, embedded and verified

    The development follows the layout of the service:
    - [app/core/security.py]  : HMAC-SHA256 signature validation
    - [app/schemas/message.py]: request validation
    - [app/api/webhook.py]    : idempotent ingestion
    - [app/api/messages.py]   : filtered, ordered, paginated listing
    - [app/api/metrics.py]    : the in-memory metrics collector

    Python values are embedded as they are in the program: a [str] is a
    sequence of code points, [bytes] a sequence of bytes, an exception is a
    value of an error type threaded through a result monad, the [messages]
    table is the list of its rows, and a dict is a finite map. *)

From Stdlib Require Import ZArith NArith List String Ascii Lia Bool PrimFloat DecimalString.
From stdpp Require Import gmap list sorting.

(** ** Python values *)

(** A Python [str] is a sequence of Unicode code points. *)
Abbreviation str := (list N) (only parsing).
Abbreviation bytes := (list Byte.byte) (only parsing).

Definition ord (c : ascii) : N := N_of_ascii c.

(** [u "abc"] is the [str] literal ['abc'] (for ASCII text). *)
Fixpoint u (s : string) : str :=
  match s with
  | EmptyString => []
  | String c s' => ord c :: u s'
  end.

(** Exceptions of the interpreter and of the libraries the service calls. *)
Inductive pyerr :=
| TypeError
| AttributeError
| UnicodeEncodeError
| UnicodeDecodeError
| JSONDecodeError
| ValidationError (fields : list str)
| IntegrityError
| OperationalError
| OverflowError.

(** The [detail] of an [HTTPException]: a literal, or [str(e)]. *)
Inductive detail :=
| Literal (s : str)
| StrOf (e : pyerr).

(** What a request handler can raise: an [HTTPException], or anything else. *)
Inductive exn :=
| HTTPException (status_code : Z) (d : detail)
| Unhandled (e : pyerr).

Inductive result (E A : Type) :=
| Ok (a : A)
| Raise (e : E).
Arguments Ok {E A} a.
Arguments Raise {E A} e.

(** Sequencing: the first exception raised ends the computation. *)
Global Instance result_bind {E} : MBind (result E) := λ A B k r,
  match r with
  | Ok a => k a
  | Raise e => Raise e
  end.

Global Instance result_fmap {E} : FMap (result E) := λ A B f r,
  match r with
  | Ok a => Ok (f a)
  | Raise e => Raise e
  end.

(** An exception that is not an [HTTPException] leaves the handler as it is. *)
Definition escalate {A} (r : result pyerr A) : result exn A :=
  match r with
  | Ok a => Ok a
  | Raise e => Raise (Unhandled e)
  end.

(** [bool(s)] for an [Optional[str]]: [None] and [''] are falsy. *)
Definition truthy (o : option str) : bool :=
  match o with
  | Some (_ :: _) => true
  | _ => false
  end.

(** [str.isascii]. *)
Definition isascii (s : str) : bool := forallb (λ c, c <? 128)%N s.

(** [str.encode("utf-8")]: surrogates cannot be encoded. *)
Definition byte_of (n : N) : Byte.byte :=
  match Byte.of_N (n mod 256) with
  | Some b => b
  | None => Byte.x00
  end.

Definition utf8_encode_char (c : N) : result pyerr bytes :=
  (if c <? 0x80 then Ok [byte_of c]
   else if c <? 0x800 then
     Ok [byte_of (0xC0 + c / 64); byte_of (0x80 + c mod 64)]
   else if (0xD800 <=? c) && (c <? 0xE000) then Raise UnicodeEncodeError
   else if c <? 0x10000 then
     Ok [byte_of (0xE0 + c / 4096); byte_of (0x80 + (c / 64) mod 64);
         byte_of (0x80 + c mod 64)]
   else if c <? 0x110000 then
     Ok [byte_of (0xF0 + c / 262144); byte_of (0x80 + (c / 4096) mod 64);
         byte_of (0x80 + (c / 64) mod 64); byte_of (0x80 + c mod 64)]
   else Raise UnicodeEncodeError)%N.

Fixpoint utf8_encode (s : str) : result pyerr bytes :=
  match s with
  | [] => Ok []
  | c :: s' =>
      b ← utf8_encode_char c;
      bs ← utf8_encode s';
      Ok (b ++ bs)
  end.

(** [bytes.hex]: two lowercase hexadecimal digits per byte. *)
Definition hexdigit (n : N) : N := (if n <? 10 then 48 + n else 87 + n)%N.

Definition hex (bs : bytes) : str :=
  flat_map (λ b, let n := Byte.to_N b in [hexdigit (n / 16); hexdigit (n mod 16)]%N) bs.

(** [hmac.compare_digest] on two [str]: both must be ASCII, or it raises
    [TypeError]; otherwise it is equality (computed in constant time). *)
Definition compare_digest (a b : str) : result pyerr bool :=
  if isascii a && isascii b then Ok (bool_decide (a = b)) else Raise TypeError.

(** ** JSON documents, as [json.loads] returns them *)

#[warnings="-register-all"]
Inductive json :=
| JNull
| JBool (b : bool)
| JInt (n : Z)
| JFloat (f : float)
| JStr (s : str)
| JArr (l : list json)
| JObj (items : list (str * json)).

(** [d.get(key)] on a dict, read from its items. *)
Fixpoint dict_get (key : str) (items : list (str * json)) : option json :=
  match items with
  | [] => None
  | (k, v) :: rest => if bool_decide (k = key) then Some v else dict_get key rest
  end.

(** [bool(v)]. *)
Definition json_truthy (v : json) : bool :=
  match v with
  | JNull => false
  | JBool b => b
  | JInt n => negb (n =? 0)%Z
  | JFloat f => negb (PrimFloat.eqb f 0%float)
  | JStr s => negb (bool_decide (s = []))
  | JArr l => negb (bool_decide (length l = 0))
  | JObj o => negb (bool_decide (length o = 0))
  end.

(** A timestamp is held by its reading, in microseconds since
    1970-01-01T00:00:00: for a timestamp in UTC, the time since the epoch.
    The table stores that reading and orders timestamps by it. *)
Abbreviation datetime := Z (only parsing).

(** A [datetime] object as a query parameter is read: what its fields show
    (the wall-clock reading, in microseconds as above) and its offset from
    UTC, in microseconds east, when it has one ([tzinfo]).  [utc] is
    [datetime(..., tzinfo=timezone.utc)]. *)
Record datetime_tz := {
  wall_clock : Z;
  utcoffset : option Z;
}.

Definition utc (reading : Z) : datetime_tz :=
  {| wall_clock := reading; utcoffset := Some 0%Z |}.

(** ** The runtime the service runs on

    What the standard library and the frameworks compute, and the service
    only calls. *)
Class Runtime := {
  (** [hmac.new(key, msg, hashlib.sha256).digest()] *)
  hmac_sha256 : bytes → bytes → bytes;
  hmac_sha256_length : ∀ key msg, length (hmac_sha256 key msg) = 32;
  (** [json.loads] on bytes: a document (an object by its items, one per
      key), [JSONDecodeError], or [UnicodeDecodeError] when the bytes are
      not text *)
  json_loads : bytes → result pyerr json;
  (** the decimal digits (category Nd) beyond ASCII, which [\d] matches *)
  unicode_Nd : N → bool;
  (** a timestamp read from text, and from a float *)
  datetime_of_str : str → option datetime;
  datetime_of_float : float → option datetime;
}.

(** ** [app/core/config.py] *)

Record Settings := {
  webhook_secret : option str;
}.

(** [bool(self.webhook_secret and len(self.webhook_secret) > 0)] *)
Definition is_webhook_secret_configured (settings : Settings) : bool :=
  match webhook_secret settings with
  | None => false
  | Some [] => false
  | Some secret => bool_decide (0 < length secret)
  end.

(** ** Requests and responses *)

(** A request: its headers (names as sent, values decoded as Latin-1, so
    every code point of a value is below 256) and its raw body. *)
Record Request := {
  headers : list (str * str);
  body : bytes;
}.

Definition ascii_lower (c : N) : N :=
  (if (65 <=? c) && (c <=? 90) then c + 32 else c)%N.

Definition lower (s : str) : str := map ascii_lower s.

(** [request.headers.get(name)]: header names compare case-insensitively
    and the first header of that name is returned. *)
Fixpoint headers_get (name : str) (hs : list (str * str)) : option str :=
  match hs with
  | [] => None
  | (k, v) :: rest =>
      if bool_decide (lower k = lower name) then Some v else headers_get name rest
  end.

Inductive content :=
| JsonStatus (status : str)      (* {"status": status} *)
| JsonDetail (d : detail)        (* {"detail": d} *)
| InternalServerError.           (* the framework's reply to an unhandled exception *)

Record Response := {
  status_code : Z;
  payload : content;
}.

(** How the framework answers: 200 with the handler's value, the status and
    detail of an [HTTPException], and 500 for any other exception. *)
Definition respond (r : result exn str) : Response :=
  match r with
  | Ok status => {| status_code := 200; payload := JsonStatus status |}
  | Raise (HTTPException code d) => {| status_code := code; payload := JsonDetail d |}
  | Raise (Unhandled _) => {| status_code := 500; payload := InternalServerError |}
  end.

Definition invalid_signature : exn :=
  HTTPException 401 (Literal (u "invalid signature")).

Definition unauthorized : Response :=
  {| status_code := 401; payload := JsonDetail (Literal (u "invalid signature")) |}.

Definition server_error : Response :=
  {| status_code := 500; payload := InternalServerError |}.

Definition ok_response : Response :=
  {| status_code := 200; payload := JsonStatus (u "ok") |}.

Section Service.
Context `{Runtime}.

(** ** [app/core/security.py] *)

Definition compute_signature (secret : str) (body : bytes) : result pyerr str :=
  key ← utf8_encode secret;
  Ok (hex (hmac_sha256 key body)).

Definition verify_signature (secret : str) (body : bytes) (signature : str)
  : result pyerr bool :=
  expected_signature ← compute_signature secret body;
  compare_digest expected_signature signature.

(** [SignatureValidator.__call__] *)
Definition SignatureValidator_call (settings : Settings) (request : Request)
  : result exn bytes :=
  let signature := headers_get (u "X-Signature") (headers request) in
  if negb (truthy signature) then Raise invalid_signature
  else if negb (is_webhook_secret_configured settings) then Raise invalid_signature
  else
    let body := body request in
    match webhook_secret settings, signature with
    | Some secret, Some signature =>
        valid ← escalate (verify_signature secret body signature);
        if negb valid then Raise invalid_signature else Ok body
    | _, _ => Raise (Unhandled AttributeError)
    end.

Definition get_validated_body (settings : Settings) (request : Request)
  : result exn bytes :=
  SignatureValidator_call settings request.

(** ** [app/schemas/message.py] *)

(** [\d] in a [str] pattern: any Unicode decimal digit. *)
Definition is_digit (c : N) : bool :=
  (if c <? 128 then (48 <=? c) && (c <=? 57) else unicode_Nd c)%N.

(** [[1-9]] *)
Definition is_1_9 (c : N) : bool := ((49 <=? c) && (c <=? 57))%N.

(** [\d{1,14}$]: one to fourteen digits up to the end of the string, where
    [$] also matches just before a newline that ends the string. *)
Fixpoint digits_then_end (n : nat) (s : str) {struct s} : bool :=
  match s with
  | [] => false
  | c :: rest =>
      is_digit c &&
      (bool_decide (rest = []) || bool_decide (rest = [10%N]) ||
       match n with
       | O => false
       | S n' => digits_then_end n' rest
       end)
  end.

(** [E164_PATTERN.match(v)] for [E164_PATTERN = re.compile(r"^\+[1-9]\d{1,14}$")],
    read as a truth value. *)
Definition E164_PATTERN_match (v : str) : bool :=
  match v with
  | plus :: d :: rest => (plus =? 43)%N && is_1_9 d && digits_then_end 13 rest
  | _ => false
  end.

(** [v.endswith("Z")] *)
Definition endswith_Z (v : str) : bool :=
  match last v with
  | Some c => (c =? 90)%N
  | None => false
  end.

(** The outcome of validating one field: a value, an error that pydantic records
    against the field ([ValueError] included), or an exception that pydantic
    does not catch. *)
Inductive field_result (A : Type) :=
| Valid (a : A)
| Invalid
| Propagates (e : pyerr).
Global Arguments Valid {A} a.
Global Arguments Invalid {A}.
Global Arguments Propagates {A} e.

(** A [str] with a length constraint is read as UTF-8 text first: one that
    holds a surrogate is an error of the field. *)
Definition is_text (s : str) : bool :=
  forallb (λ c, negb ((0xD800 <=? c) && (c <? 0xE000)) && (c <? 0x110000))%N s.

(** [message_id: str = Field(..., min_length=1, max_length=255)] *)
Definition validate_message_id (v : option json) : field_result str :=
  match v with
  | Some (JStr s) =>
      if is_text s && bool_decide (1 ≤ length s) && bool_decide (length s ≤ 255)
      then Valid s else Invalid
  | _ => Invalid
  end.

(** [validate_from_e164], a [mode="before"] validator: it runs on the raw
    value, whatever its type, and the [str] check follows it. *)
Definition validate_from_e164 (v : json) : field_result str :=
  if negb (json_truthy v) then Invalid
  else match v with
       | JStr s => if negb (E164_PATTERN_match s) then Invalid else Valid s
       | _ => Propagates TypeError    (* [re.Pattern.match] on a value that is not text *)
       end.

(** [validate_to_e164] runs after the [str] check. *)
Definition validate_to_e164 (v : json) : field_result str :=
  match v with
  | JStr s =>
      if negb (json_truthy (JStr s)) || negb (E164_PATTERN_match s) then Invalid else Valid s
  | _ => Invalid
  end.

(** The bounds of [datetime]: years 1 to 9999. *)
Definition datetime_min : Z := -62135596800000000.
Definition datetime_max : Z := 253402300799999999.

(** A number is read as Unix time: seconds when its magnitude is at most
    [2e10], milliseconds beyond. *)
Definition datetime_of_int (n : Z) : option datetime :=
  let micros := (if Z.abs n <=? 20000000000 then n * 1000000 else n * 1000)%Z in
  if (datetime_min <=? micros)%Z && (micros <=? datetime_max)%Z then Some micros else None.

(** The [datetime] check of the [ts] field, by the type of the value. *)
Definition datetime_validate (v : json) : option datetime :=
  match v with
  | JStr s => datetime_of_str s
  | JInt n => datetime_of_int n
  | JFloat f => datetime_of_float f
  | _ => None
  end.

(** [validate_ts_utc], a [mode="before"] validator, then the [datetime] check. *)
Definition validate_ts_utc (v : json) : field_result json :=
  match v with
  | JStr s => if negb (endswith_Z s) then Invalid else Valid v
  | _ => Valid v
  end.

Definition validate_ts (v : json) : field_result datetime :=
  match validate_ts_utc v with
  | Valid v =>
      match datetime_validate v with
      | Some t => Valid t
      | None => Invalid
      end
  | Invalid => Invalid
  | Propagates e => Propagates e
  end.

(** [text: Optional[str] = Field(default=None, max_length=4096)] *)
Definition validate_text (v : option json) : field_result (option str) :=
  match v with
  | None => Valid None
  | Some JNull => Valid None
  | Some (JStr s) =>
      if is_text s && bool_decide (length s ≤ 4096) then Valid (Some s) else Invalid
  | Some _ => Invalid
  end.

Record WebhookMessageRequest := {
  req_message_id : str;
  req_from_ : str;
  req_to : str;
  req_ts : datetime;
  req_text : option str;
}.

(** A required field: absent, it is an error of that field. *)
Definition required {A} (validate : json → field_result A) (v : option json)
  : field_result A :=
  match v with
  | Some v => validate v
  | None => Invalid
  end.

(** [from_] is read under its alias ["from"], and under its own name too
    ([populate_by_name]). *)
Definition get_from (items : list (str * json)) : option json :=
  match dict_get (u "from") items with
  | Some v => Some v
  | None => dict_get (u "from_") items
  end.

(** The names of the fields whose validation failed. *)
Definition failed {A} (name : string) (r : field_result A) : list str :=
  match r with
  | Valid _ => []
  | _ => [u name]
  end.

(** [WebhookMessageRequest.model_validate(data)]: the fields are validated in
    the order of their declaration; the errors of all fields are collected in
    one [ValidationError], and any other exception ends the validation where
    it is raised. *)
Definition model_validate (data : json) : result pyerr WebhookMessageRequest :=
  match data with
  | JObj items =>
      let message_id := validate_message_id (dict_get (u "message_id") items) in
      let from_ := required validate_from_e164 (get_from items) in
      let to := required validate_to_e164 (dict_get (u "to") items) in
      let ts := required validate_ts (dict_get (u "ts") items) in
      let text := validate_text (dict_get (u "text") items) in
      match message_id, from_, to, ts, text with
      | _, Propagates e, _, _, _ => Raise e
      | Valid message_id, Valid from_, Valid to, Valid ts, Valid text =>
          Ok {| req_message_id := message_id; req_from_ := from_; req_to := to;
                req_ts := ts; req_text := text |}
      | _, _, _, _, _ =>
          Raise (ValidationError (failed "message_id" message_id ++ failed "from" from_
                                  ++ failed "to" to ++ failed "ts" ts
                                  ++ failed "text" text))
      end
  | _ => Raise (ValidationError [])
  end.

(** ** [app/models/message.py]: the [messages] table *)

Record Message := {
  message_id : str;          (* primary key *)
  sender : str;
  recipient : str;
  ts : datetime;
  text : option str;         (* nullable *)
  created_at : datetime;
}.

(** [db.query(Message).filter(Message.message_id == id).first()] *)
Definition query_by_message_id (id : str) (db : list Message) : option Message :=
  List.find (λ m, bool_decide (message_id m = id)) db.

(** [db.add(message); db.commit()]: the primary key refuses a second row of
    the same [message_id] with [IntegrityError], and the table is unchanged. *)
Definition add_commit (message : Message) (db : list Message)
  : result pyerr (list Message) :=
  match query_by_message_id (message_id message) db with
  | Some _ => Raise IntegrityError
  | None => Ok (db ++ [message])
  end.

(** ** [app/api/webhook.py] *)

Record WebhookResponse := {
  status : str;
}.

(** [ingest_message]: the handler of [POST /webhook], run on the validated
    body at time [now]; it returns its outcome and the table it leaves. *)
Definition ingest_message (validated_body : bytes) (now : datetime) (db : list Message)
  : result exn WebhookResponse * list Message :=
  match json_loads validated_body with
  | Raise JSONDecodeError => (Raise (HTTPException 422 (Literal (u "Invalid JSON"))), db)
  | Raise e => (Raise (Unhandled e), db)
  | Ok data =>
      match model_validate data with
      | Raise e => (Raise (HTTPException 422 (StrOf e)), db)
      | Ok message_data =>
          match query_by_message_id (req_message_id message_data) db with
          | Some existing => (Ok {| status := u "ok" |}, db)
          | None =>
              let message :=
                {| message_id := req_message_id message_data;
                   sender := req_from_ message_data;
                   recipient := req_to message_data;
                   ts := req_ts message_data;
                   text := req_text message_data;
                   created_at := now |} in
              match add_commit message db with
              | Ok db' => (Ok {| status := u "ok" |}, db')
              | Raise IntegrityError => (Ok {| status := u "ok" |}, db)   (* rollback *)
              | Raise e => (Raise (Unhandled e), db)
              end
          end
      end
  end.

(** [POST /webhook]: the signature dependency, then the handler. *)
Definition post_webhook (settings : Settings) (now : datetime) (request : Request)
    (db : list Message) : Response * list Message :=
  match get_validated_body settings request with
  | Raise e => (respond (Raise e), db)
  | Ok validated_body =>
      let '(r, db') := ingest_message validated_body now db in
      (respond (status <$> r), db')
  end.

End Service.

(** ** [app/api/messages.py] *)

(** SQLite reads the characters of the operands of [LIKE] with
    [sqlite3Utf8Read], which gives U+FFFD for U+FFFE and for U+FFFF. *)
Definition utf8_read (c : N) : N :=
  (if (c =? 0xFFFE) || (c =? 0xFFFF) then 0xFFFD else c)%N.

(** SQL [LIKE] as SQLite evaluates it: [%] matches any run of characters,
    [_] any one character, and any other character of the pattern matches
    itself as [sqlite3Utf8Read] gives it, ASCII letters without regard to
    case. *)
Fixpoint sql_like (pattern : str) : str → bool :=
  match pattern with
  | [] => λ s, bool_decide (s = [])
  | p :: pattern' =>
      if (p =? 37)%N then
        fix any (s : str) : bool :=
          sql_like pattern' s ||
          match s with
          | [] => false
          | _ :: s' => any s'
          end
      else if (p =? 95)%N then
        λ s, match s with
             | [] => false
             | _ :: s' => sql_like pattern' s'
             end
      else
        λ s, match s with
             | [] => false
             | c :: s' =>
                 (ascii_lower (utf8_read p) =? ascii_lower (utf8_read c))%N
                 && sql_like pattern' s'
             end
  end.

(** SQLite reads the operands of [LIKE] as C strings: a text counts up to
    its first NUL character. *)
Fixpoint c_str (s : str) : str :=
  match s with
  | [] => []
  | c :: s' => if (c =? 0)%N then [] else c :: c_str s'
  end.

(** [column.ilike(pattern)], rendered [lower(column) LIKE lower(pattern)]:
    on a NULL column the condition is NULL. *)
Definition ilike (column : option str) (pattern : str) : option bool :=
  match column with
  | None => None
  | Some s => Some (sql_like (c_str (lower pattern)) (c_str (lower s)))
  end.

(** [query.filter(condition)] keeps the rows on which the condition is true
    (and neither false nor NULL). *)
Definition sql_filter (condition : Message → option bool) (query : list Message)
  : list Message :=
  filter (λ m, condition m = Some true) query.

(** The order of [str] values in the table: code point by code point. *)
Fixpoint str_leb (a b : str) : bool :=
  match a, b with
  | [], _ => true
  | _ :: _, [] => false
  | x :: a', y :: b' => (x <? y)%N || ((x =? y)%N && str_leb a' b')
  end.

(** [ORDER BY ts ASC, message_id ASC] *)
Definition key_leb (k1 k2 : datetime * str) : bool :=
  (k1.1 <? k2.1)%Z || ((k1.1 =? k2.1)%Z && str_leb k1.2 k2.2).

Definition key_le (k1 k2 : datetime * str) : Prop := key_leb k1 k2 = true.

Definition sort_key (m : Message) : datetime * str := (ts m, message_id m).

Definition row_le (m1 m2 : Message) : Prop := key_le (sort_key m1) (sort_key m2).

Global Instance row_le_dec m1 m2 : Decision (row_le m1 m2).
Proof. unfold row_le, key_le. apply _. Defined.

Definition order_by (query : list Message) : list Message := merge_sort row_le query.

(** [OFFSET n] and [LIMIT n], once the driver has bound [n] (which it does
    for an integer SQLite can hold, see [list_messages_raises]); a negative
    limit is no limit. *)
Definition sql_offset (n : Z) (query : list Message) : list Message :=
  drop (Z.to_nat n) query.

Definition sql_limit (n : Z) (query : list Message) : list Message :=
  if (n <? 0)%Z then query else take (Z.to_nat n) query.

Record MessageResponse := {
  resp_message_id : str;
  resp_from_ : str;
  resp_to : str;
  resp_ts : datetime;
  resp_text : option str;
  resp_created_at : option datetime;
}.

Record MessagesListResponse := {
  data : list MessageResponse;
  total : nat;
  limit : Z;
  offset : Z;
}.

Definition to_response (msg : Message) : MessageResponse :=
  {| resp_message_id := message_id msg;
     resp_from_ := sender msg;
     resp_to := recipient msg;
     resp_ts := ts msg;
     resp_text := text msg;
     resp_created_at := Some (created_at msg) |}.

(** [f"%{q}%"] *)
Definition search_pattern (q : str) : str := u "%" ++ q ++ u "%".

(** [list_messages]: the handler of [GET /messages]; what it returns when
    SQLite runs its two queries ([list_messages_raises] below tells when it
    does not).  The table holds timestamps without zone: the [datetime] bound
    to [Message.ts >= since] is written by its wall-clock fields, and its
    offset from UTC is dropped. *)
Definition list_messages (db : list Message) (limit offset : Z)
    (from_ : option str) (since : option datetime_tz) (q : option str)
  : MessagesListResponse :=
  let query := db in
  let count_query := db in
  let '(query, count_query) :=
    match from_ with
    | Some from_ =>
        if truthy (Some from_) then
          (sql_filter (λ m, Some (bool_decide (sender m = from_))) query,
           sql_filter (λ m, Some (bool_decide (sender m = from_))) count_query)
        else (query, count_query)
    | None => (query, count_query)
    end in
  let '(query, count_query) :=
    match since with
    | Some since =>
        (sql_filter (λ m, Some (wall_clock since <=? ts m)%Z) query,
         sql_filter (λ m, Some (wall_clock since <=? ts m)%Z) count_query)
    | None => (query, count_query)
    end in
  let '(query, count_query) :=
    match q with
    | Some q =>
        if truthy (Some q) then
          (sql_filter (λ m, ilike (text m) (search_pattern q)) query,
           sql_filter (λ m, ilike (text m) (search_pattern q)) count_query)
        else (query, count_query)
    | None => (query, count_query)
    end in
  let total := length count_query in
  let query := order_by query in
  let query := sql_limit limit (sql_offset offset query) in
  let messages := query in
  {| data := map to_response messages; total := total; limit := limit; offset := offset |}.

(** [SQLITE_MAX_LIKE_PATTERN_LENGTH], in bytes. *)
Definition SQLITE_MAX_LIKE_PATTERN_LENGTH : Z := 50000.

(** An integer SQLite can hold (64 bits, signed). *)
Definition sqlite_integer (n : Z) : bool := ((- 2 ^ 63 <=? n) && (n <? 2 ^ 63))%Z.

(** The exception with which [list_messages] ends instead of returning, none
    of which it catches.

    [count_query.scalar()] binds the sender and the pattern as UTF-8 text,
    which a [str] with a surrogate is not ([UnicodeEncodeError]).  SQLite
    then tests the conditions of a row in the order of the query, and
    [LIKE], when it is reached (on a row that meets the conditions on sender
    and timestamp, whatever its text), refuses a pattern of more than
    [SQLITE_MAX_LIKE_PATTERN_LENGTH] bytes ([OperationalError], "LIKE or GLOB
    pattern too complex").  [query.all()] binds [limit] and [offset], which
    must be integers SQLite can hold ([OverflowError]). *)
Definition list_messages_raises (db : list Message) (limit offset : Z)
    (from_ : option str) (since : option datetime_tz) (q : option str)
  : option pyerr :=
  let sender_bound := if truthy from_ then default [] from_ else [] in
  let pattern_bound := if truthy q then search_pattern (default [] q) else [] in
  let query :=
    if truthy from_ then sql_filter (λ m, Some (bool_decide (sender m = sender_bound))) db
    else db in
  let query :=
    match since with
    | Some since => sql_filter (λ m, Some (wall_clock since <=? ts m)%Z) query
    | None => query
    end in
  match utf8_encode sender_bound, utf8_encode pattern_bound with
  | Raise e, _ | _, Raise e => Some e
  | Ok _, Ok pattern =>
      if (SQLITE_MAX_LIKE_PATTERN_LENGTH <? Z.of_nat (length pattern))%Z
         && negb (bool_decide (query = []))
      then Some OperationalError
      else if negb (sqlite_integer limit && sqlite_integer offset) then Some OverflowError
      else None
  end.

(** [GET /messages], on the parameters as the framework has read them
    ([limit] and [offset] as integers, [since] as a [datetime]; a parameter it
    cannot read is refused with 422 before this point).  [limit] is declared
    [Query(ge=1, le=100)] and [offset] [Query(ge=0)]: a request outside these
    bounds is refused with 422, every parameter out of bounds named, before
    the handler runs.  An exception of the handler is answered 500. *)
Definition get_messages (db : list Message) (limit offset : Z)
    (from_ : option str) (since : option datetime_tz) (q : option str)
  : result exn MessagesListResponse :=
  let errors :=
    (if (1 <=? limit)%Z && (limit <=? 100)%Z then [] else [u "limit"])
    ++ (if (0 <=? offset)%Z then [] else [u "offset"]) in
  if negb (bool_decide (errors = [])) then
    Raise (HTTPException 422 (StrOf (ValidationError errors)))
  else
    match list_messages_raises db limit offset from_ since q with
    | Some e => Raise (Unhandled e)
    | None => Ok (list_messages db limit offset from_ since q)
    end.

(** ** [app/api/metrics.py] *)

(** [_metrics]: the process-wide store. *)
Record Metrics := {
  http_requests_total : gmap str Z;
  http_request_duration_seconds : gmap str (list float);
  startup_time : option float;
}.

Definition metrics_init : Metrics :=
  {| http_requests_total := ∅; http_request_duration_seconds := ∅; startup_time := None |}.

(** [str(n)] for an [int]. *)
Definition str_of_int (n : Z) : str := u (DecimalString.NilZero.string_of_int (Z.to_int n)).

(** [l[-n:]] for a positive [n]. *)
Definition last_n {A} (n : nat) (l : list A) : list A := drop (length l - n) l.

Definition record_request (method path : str) (status_code : Z) (duration : float)
    (metrics : Metrics) : Metrics :=
  let key := method ++ u "_" ++ path ++ u "_" ++ str_of_int status_code in
  let requests_total :=
    <[key := (default 0 (http_requests_total metrics !! key) + 1)%Z]>
      (http_requests_total metrics) in
  let duration_key := method ++ u "_" ++ path in
  let histogram := http_request_duration_seconds metrics in
  let histogram :=
    match histogram !! duration_key with
    | None => <[duration_key := []]> histogram
    | Some _ => histogram
    end in
  let durations := default [] (histogram !! duration_key) ++ [duration] in
  let histogram := <[duration_key := durations]> histogram in
  let histogram :=
    if bool_decide (1000 < length durations)
    then <[duration_key := last_n 1000 durations]> histogram
    else histogram in
  {| http_requests_total := requests_total;
     http_request_duration_seconds := histogram;
     startup_time := startup_time metrics |}.

(** [call_next(request)], for the outcome of the handler of the request:
    inside the middleware the framework turns an [HTTPException] into its
    response; any other exception comes out of [call_next] as it is (the
    500 is made outside the middleware). *)
Definition call_next (outcome : result exn str) : result pyerr Response :=
  match outcome with
  | Raise (Unhandled e) => Raise e
  | _ => Ok (respond outcome)
  end.

(** [MetricsMiddleware.dispatch], given the readings of the clock before
    and after [call_next] and what [call_next] gives: the request is
    recorded once [call_next] has returned a response, the report of the
    metrics themselves apart; an exception of [call_next] is not caught, so
    the lines after it are not run. *)
Definition dispatch (method path : str) (start_time end_time : float)
    (next : result pyerr Response) (metrics : Metrics)
  : result pyerr Response * Metrics :=
  if bool_decide (path = u "/metrics") then (next, metrics)
  else
    match next with
    | Raise e => (Raise e, metrics)
    | Ok response =>
        let duration := (end_time - start_time)%float in
        (Ok response, record_request method path (status_code response) duration metrics)
    end.

(** [s.split("_", 1)]: the part before the first underscore, and the part
    after it when there is one. *)
Fixpoint split_underscore (s : str) : str * option str :=
  match s with
  | [] => ([], None)
  | c :: s' =>
      if (c =? 95)%N then ([], Some s')
      else let '(before, after) := split_underscore s' in (c :: before, after)
  end.

(** [s.rsplit("_", 1)]: the same from the right. *)
Definition rsplit_underscore (s : str) : str * option str :=
  let '(after, before) := split_underscore (reverse s) in
  match before with
  | Some before => (reverse before, Some (reverse after))
  | None => (s, None)
  end.

(** The labels [generate_prometheus_metrics] reads back from a key of
    [http_requests_total]; [parts[1]] on a key without underscore raises
    [IndexError] ([None] here). *)
Definition counter_labels (key : str) : option (str * str * str) :=
  let '(method_path, status) := rsplit_underscore key in
  match status with
  | None => None
  | Some status =>
      let '(method, path) := split_underscore method_path in
      Some (method, default (u "/") path, status)
  end.

(** The labels it reads back from a key of [http_request_duration_seconds]. *)
Definition duration_labels (key : str) : str * str :=
  let '(method, path) := split_underscore key in
  (method, default (u "/") path).

(** The line of the report for one counter. *)
Definition counter_line (key : str) (count : Z) : option str :=
  match counter_labels key with
  | None => None
  | Some (method, path, status) =>
      Some (u "http_requests_total{method=" ++ [34%N] ++ method ++ [34%N]
            ++ u ",path=" ++ [34%N] ++ path ++ [34%N]
            ++ u ",status=" ++ [34%N] ++ status ++ [34%N] ++ u "} "
            ++ str_of_int count)
  end.

(** ** [app/api/health.py] *)

Record HealthResponse := {
  health_status : str;
  checks : option (list (str * str));
}.

(** [liveness] *)
Definition liveness : Z * HealthResponse :=
  (200%Z, {| health_status := u "ok"; checks := None |}).

(** [readiness], given whether the database answered
    ([check_db_connection]): the status code and the body. *)
Definition readiness (settings : Settings) (db_ok : bool) : Z * HealthResponse :=
  let checks := [] in
  let is_ready := true in
  let checks := checks ++ [(u "database", if db_ok then u "ok" else u "failed")] in
  let is_ready := if negb db_ok then false else is_ready in
  let secret_ok := is_webhook_secret_configured settings in
  let checks :=
    checks ++ [(u "webhook_secret", if secret_ok then u "ok" else u "not configured")] in
  let is_ready := if negb secret_ok then false else is_ready in
  if is_ready then (200%Z, {| health_status := u "ok"; checks := Some checks |})
  else (503%Z, {| health_status := u "not ready"; checks := Some checks |}).

(** ** [app/api/stats.py] *)

Record SenderCount := {
  sender_from_ : str;
  sender_count : nat;
}.

Record StatsResponse := {
  total_messages : nat;
  senders_count : nat;
  messages_per_sender : list SenderCount;
  first_message_ts : option Z;
  last_message_ts : option Z;
}.

(** [GROUP BY sender] with [count(message_id)]: one row per sender, with the
    number of its messages (the senders in the order in which the table first
    holds them; SQL leaves that order open). *)
Definition group_by_sender (db : list Message) : list (str * nat) :=
  (λ s, (s, length (filter (λ m, sender m = s) db))) <$> remove_dups (sender <$> db).

(** [ORDER BY count DESC] *)
Definition count_ge (a b : str * nat) : Prop := b.2 ≤ a.2.

Global Instance count_ge_dec a b : Decision (count_ge a b).
Proof. unfold count_ge. apply _. Defined.

(** [min(ts)] and [max(ts)]: NULL on an empty table. *)
Definition sql_min (l : list Z) : option Z :=
  match l with
  | [] => None
  | x :: l' => Some (foldr Z.min x l')
  end.

Definition sql_max (l : list Z) : option Z :=
  match l with
  | [] => None
  | x :: l' => Some (foldr Z.max x l')
  end.

(** [get_stats]: the handler of [GET /stats]. *)
Definition get_stats (db : list Message) : StatsResponse :=
  let total_messages := length db in
  let senders_count := length (remove_dups (sender <$> db)) in
  let top_senders_query := take 10 (merge_sort count_ge (group_by_sender db)) in
  let messages_per_sender :=
    (λ row, {| sender_from_ := row.1; sender_count := row.2 |}) <$> top_senders_query in
  let first_message_ts := sql_min (ts <$> db) in
  let last_message_ts := sql_max (ts <$> db) in
  {| total_messages := total_messages;
     senders_count := senders_count;
     messages_per_sender := messages_per_sender;
     first_message_ts := first_message_ts;
     last_message_ts := last_message_ts |}.

(** * The vocabulary of the properties *)

(** ** Vocabulary: the table *)

(** The number of rows stored under a [message_id]. *)
Definition rows_with_id (id : str) (db : list Message) : list Message :=
  filter (λ m, message_id m = id) db.

(** The primary key: no two rows share a [message_id]. *)
Definition primary_key (db : list Message) : Prop := NoDup (message_id <$> db).

(** The row the handler builds from a validated request. *)
Definition row_of (message_data : WebhookMessageRequest) (now : Z) : Message :=
  {| message_id := req_message_id message_data;
     sender := req_from_ message_data;
     recipient := req_to message_data;
     ts := req_ts message_data;
     text := req_text message_data;
     created_at := now |}.

(** ** Vocabulary: phone numbers *)

(** The pattern of the specification: [+], a digit 1-9, then one to
    fourteen digits 0-9, and nothing else. *)
Definition ascii_digit (c : N) : bool := ((48 <=? c) && (c <=? 57))%N.

Definition e164 (s : str) : bool :=
  match s with
  | plus :: d :: rest =>
      (plus =? 43)%N && is_1_9 d && forallb ascii_digit rest &&
      bool_decide (1 ≤ length rest ≤ 14)
  | _ => false
  end.

(** ** Vocabulary: listings *)

(** The conditions the handler adds to its query, one per filter; a filter
    that is absent or empty adds none. *)
Definition from_condition (from_ : option str) (m : Message) : Prop :=
  match from_ with
  | Some (c :: s) => sender m = c :: s
  | _ => True
  end.

Definition since_condition (since : option datetime_tz) (m : Message) : Prop :=
  match since with
  | Some t => (wall_clock t ≤ ts m)%Z
  | None => True
  end.

Definition q_condition (q : option str) (m : Message) : Prop :=
  match q with
  | Some (c :: s) => ilike (text m) (search_pattern (c :: s)) = Some true
  | _ => True
  end.

Global Instance from_condition_dec from_ m : Decision (from_condition from_ m).
Proof. destruct from_ as [[|c s]|]; cbn; apply _. Defined.

Global Instance since_condition_dec since m : Decision (since_condition since m).
Proof. destruct since; cbn; apply _. Defined.

Global Instance q_condition_dec q m : Decision (q_condition q m).
Proof. destruct q as [[|c s]|]; cbn; apply _. Defined.

(** The rows a call selects, before they are ordered and paginated. *)
Definition selected (db : list Message) (from_ : option str) (since : option datetime_tz)
    (q : option str) : list Message :=
  filter (λ m, from_condition from_ m ∧ since_condition since m ∧ q_condition q m) db.

(** The page of a listing. *)
Definition page (limit offset : Z) (rows : list Message) : list MessageResponse :=
  to_response <$> sql_limit limit (sql_offset offset (order_by rows)).

Definition response_key (r : MessageResponse) : Z * str :=
  (resp_ts r, resp_message_id r).

Definition response_le (r1 r2 : MessageResponse) : Prop :=
  key_le (response_key r1) (response_key r2).

(** A character as [LIKE] compares it. *)
Definition like_char (c : N) : N := ascii_lower (utf8_read c).

(** [needle] occurs in [hay]. *)
Definition contains (needle hay : str) : Prop :=
  ∃ pre post, hay = pre ++ needle ++ post.

(** [q] occurs in [t] when the case of ASCII letters is ignored. *)
Definition contains_ci (q t : str) : Prop := contains (lower q) (lower t).

(** The instant a [datetime] denotes, as a reading in UTC (one without
    offset is read as UTC). *)
Definition instant (d : datetime_tz) : Z := (wall_clock d - default 0 (utcoffset d))%Z.

(** A row meets the filters given: its sender is [from], its timestamp is
    not before the instant of [since], and its text contains [q]. *)
Definition selects (from_ : option str) (since : option datetime_tz) (q : option str)
    (m : Message) : Prop :=
  (∀ X, from_ = Some X → sender m = X) ∧
  (∀ T, since = Some T → (instant T ≤ ts m)%Z) ∧
  (∀ s, q = Some s → ∃ t, text m = Some t ∧ contains_ci s t).

(** [q] holds no wildcard of [LIKE], no NUL character, and none of the
    characters U+FFFD, U+FFFE and U+FFFF, which [LIKE] reads as one. *)
Definition plain (q : str) : Prop :=
  (37%N ∉ q) ∧ (95%N ∉ q) ∧ (0%N ∉ q) ∧
  (0xFFFD%N ∉ q) ∧ (0xFFFE%N ∉ q) ∧ (0xFFFF%N ∉ q).

(** [s] is text whose UTF-8 encoding holds at most [n] bytes. *)
Definition encodes_within (n : Z) (s : str) : Prop :=
  ∃ bs, utf8_encode s = Ok bs ∧ (Z.of_nat (length bs) ≤ n)%Z.

(** ** Vocabulary: metrics *)

(** One call of [record_request], and a run of calls. *)
Record Call := {
  call_method : str;
  call_path : str;
  call_status_code : Z;
  call_duration : float;
}.

Definition record_call (metrics : Metrics) (c : Call) : Metrics :=
  record_request (call_method c) (call_path c) (call_status_code c) (call_duration c) metrics.

Definition record_calls (calls : list Call) (metrics : Metrics) : Metrics :=
  fold_left record_call calls metrics.

(** The key of the duration buffer of a method and path. *)
Definition duration_key (method path : str) : str := method ++ u "_" ++ path.

(** The buffer stored under a key (none is an empty one). *)
Definition buffer (metrics : Metrics) (key : str) : list float :=
  default [] (http_request_duration_seconds metrics !! key).

(** The durations recorded under a key by a run of calls, oldest first. *)
Definition samples (key : str) (calls : list Call) : list float :=
  call_duration <$> filter (λ c, duration_key (call_method c) (call_path c) = key) calls.

(** Every buffer holds at most 1000 samples. *)
Definition bounded (metrics : Metrics) : Prop :=
  ∀ key, length (buffer metrics key) ≤ 1000.

(** ** Vocabulary: signatures, runs of requests, stored rows *)

(** A character of ["0123456789abcdef"]. *)
Definition is_hex_digit (c : N) : bool :=
  ((48 <=? c) && (c <=? 57) || (97 <=? c) && (c <=? 102))%N.

(** The key of the counter of a method, path and status. *)
Definition counter_key (method path : str) (status_code : Z) : str :=
  method ++ u "_" ++ path ++ u "_" ++ str_of_int status_code.

(** The calls of a run that a key of [http_requests_total] counts. *)
Definition counted (key : str) (calls : list Call) : list Call :=
  filter (λ c, counter_key (call_method c) (call_path c) (call_status_code c) = key) calls.

Section RunVocabulary.
Context `{Runtime}.

(** A run of [POST /webhook] requests, each with the time it is served at:
    the table the run leaves. *)
Definition serve (settings : Settings) (db : list Message) (call : Z * Request)
  : list Message :=
  (post_webhook settings call.1 call.2 db).2.

Definition serve_all (settings : Settings) (calls : list (Z * Request))
    (db : list Message) : list Message :=
  fold_left (serve settings) calls db.

(** What the handler of [POST /webhook] and its dependency end with, before
    the framework makes the response of it. *)
Definition webhook_outcome (settings : Settings) (now : Z) (request : Request)
    (db : list Message) : result exn str :=
  match get_validated_body settings request with
  | Raise e => Raise e
  | Ok validated_body => status <$> (ingest_message validated_body now db).1
  end.

(** What the schema asks of the fields of a message. *)
Definition valid_row (m : Message) : Prop :=
  1 ≤ length (message_id m) ≤ 255 ∧
  E164_PATTERN_match (sender m) = true ∧
  E164_PATTERN_match (recipient m) = true ∧
  ∀ t, text m = Some t → length t ≤ 4096.

(** What [model_validate] asks of a document, field by field. *)
Definition document_of (items : list (str * json)) (message_data : WebhookMessageRequest)
  : Prop :=
  (dict_get (u "message_id") items = Some (JStr (req_message_id message_data)) ∧
   is_text (req_message_id message_data) = true ∧
   1 ≤ length (req_message_id message_data) ≤ 255) ∧
  (get_from items = Some (JStr (req_from_ message_data)) ∧
   E164_PATTERN_match (req_from_ message_data) = true) ∧
  (dict_get (u "to") items = Some (JStr (req_to message_data)) ∧
   E164_PATTERN_match (req_to message_data) = true) ∧
  (∃ v, dict_get (u "ts") items = Some v ∧
        datetime_validate v = Some (req_ts message_data) ∧
        ∀ s, v = JStr s → endswith_Z s = true) ∧
  match req_text message_data with
  | None => dict_get (u "text") items = None ∨ dict_get (u "text") items = Some JNull
  | Some t =>
      dict_get (u "text") items = Some (JStr t) ∧ is_text t = true ∧ length t ≤ 4096
  end.

End RunVocabulary.

(** ** A concrete runtime for worked examples

    The examples below run the handlers on concrete requests.  They need a
    runtime to run on: the one here reads the documents of a small corpus,
    timestamps written [YYYY-MM-DDTHH:MM:SS] with a [Z] or a [+HH:MM] offset,
    and signs with a keyed checksum of the right size. *)
Module Fixture.

Definition quote : N := 34.

(** [json.dumps] on the documents of the corpus (flat objects of ASCII text). *)
Definition escape (s : str) : str :=
  flat_map (λ c, if (c =? 10)%N then u "\n"
                 else if (c =? 34)%N || (c =? 92)%N then [92%N; c]
                 else [c]) s.

Fixpoint dumps_items (dumps : json → str) (items : list (str * json)) : str :=
  match items with
  | [] => []
  | [(k, v)] => [quote] ++ k ++ [quote] ++ u ": " ++ dumps v
  | (k, v) :: rest =>
      [quote] ++ k ++ [quote] ++ u ": " ++ dumps v ++ u ", " ++ dumps_items dumps rest
  end.

Definition dumps (d : json) : str :=
  let scalar v :=
    match v with
    | JNull => u "null"
    | JBool true => u "true"
    | JBool false => u "false"
    | JInt n => str_of_int n
    | JStr s => [quote] ++ escape s ++ [quote]
    | _ => []
    end in
  match d with
  | JObj items => u "{" ++ dumps_items scalar items ++ u "}"
  | v => scalar v
  end.

Definition encode (s : str) : bytes := map byte_of s.

(** A keyed checksum of 32 bytes. *)
Definition checksum (key msg : bytes) : bytes :=
  let weight bs := fold_left (λ acc b, (acc * 31 + Byte.to_N b) mod 65521)%N bs 7%N in
  map (λ i, byte_of (weight key * (N.of_nat i + 3) + weight msg * (N.of_nat i + 5))%N)
      (seq 0 32).

Definition digit_value (c : N) : option Z :=
  if ((48 <=? c) && (c <=? 57))%N then Some (Z.of_N c - 48)%Z else None.

Fixpoint number (acc : Z) (s : str) : option Z :=
  match s with
  | [] => Some acc
  | c :: s' => d ← digit_value c; number (acc * 10 + d) s'
  end.

(** Days from 1970-01-01 to the given civil date. *)
Definition days_from_civil (y m d : Z) : Z :=
  let y' := (if m <=? 2 then y - 1 else y)%Z in
  let era := (y' / 400)%Z in
  let yoe := (y' - era * 400)%Z in
  let mp := ((m + 9) mod 12)%Z in
  let doy := ((153 * mp + 2) / 5 + d - 1)%Z in
  let doe := (yoe * 365 + yoe / 4 - yoe / 100 + doy)%Z in
  (era * 146097 + doe - 719468)%Z.

Definition parse_offset (s : str) : option Z :=
  match s with
  | [90%N] => Some 0%Z
  | sign :: h1 :: h2 :: 58%N :: m1 :: m2 :: [] =>
      h ← number 0 [h1; h2];
      m ← number 0 [m1; m2];
      if (sign =? 43)%N then Some (h * 3600 + m * 60)%Z
      else if (sign =? 45)%N then Some (- (h * 3600 + m * 60))%Z
      else None
  | _ => None
  end.

Definition parse_timestamp (s : str) : option Z :=
  match s with
  | y1 :: y2 :: y3 :: y4 :: 45%N :: mo1 :: mo2 :: 45%N :: d1 :: d2 :: 84%N ::
    h1 :: h2 :: 58%N :: mi1 :: mi2 :: 58%N :: s1 :: s2 :: zone =>
      y ← number 0 [y1; y2; y3; y4];
      mo ← number 0 [mo1; mo2];
      d ← number 0 [d1; d2];
      h ← number 0 [h1; h2];
      mi ← number 0 [mi1; mi2];
      sec ← number 0 [s1; s2];
      off ← parse_offset zone;
      Some ((days_from_civil y mo d * 86400 + h * 3600 + mi * 60 + sec - off) * 1000000)%Z
  | _ => None
  end.

(** The documents the examples send. *)
Definition document (message_id : string) (from_ to : str) (ts : json) (text : string)
  : json :=
  JObj [(u "message_id", JStr (u message_id)); (u "from", JStr from_);
        (u "to", JStr to); (u "ts", ts); (u "text", JStr (u text))].

Definition m1 : json :=
  document "m1" (u "+919876543210") (u "+14155550100") (JStr (u "2025-01-15T10:00:00Z")) "Hello".

Definition m1_offset : json :=
  document "m3" (u "+919876543210") (u "+14155550100")
    (JStr (u "2025-01-15T10:00:00+05:30")) "Hello".

Definition m1_unix : json :=
  document "m5" (u "+919876543210") (u "+14155550100") (JInt 1736935200) "Hello".

Definition m1_newline : json :=
  document "m6" (u "+12" ++ [10%N]) (u "+14155550100")
    (JStr (u "2025-01-15T10:00:00Z")) "Hello".

Definition corpus : list json := [m1; m1_offset; m1_unix; m1_newline].

Definition loads (raw : bytes) : result pyerr json :=
  match List.find (λ d, bool_decide (dumps d = map Byte.to_N raw)) corpus with
  | Some d => Ok d
  | None => Raise JSONDecodeError
  end.

#[export] Instance runtime : Runtime := {|
  hmac_sha256 := checksum;
  hmac_sha256_length := λ key msg, eq_trans (length_map _ (seq 0 32)) (length_seq _ _);
  json_loads := loads;
  unicode_Nd := λ c, ((0x660 <=? c) && (c <=? 0x669))%N;
  datetime_of_str := parse_timestamp;
  datetime_of_float := λ _, None;
|}.

Definition TEST_SECRET : str := u "test-secret-key-12345".

(** Three stored rows. *)
Definition row1 : Message :=
  {| message_id := u "m1"; sender := u "+919876543210"; recipient := u "+14155550100";
     ts := 1736935200000000; text := Some (u "Hello"); created_at := 1000 |}.

Definition row2 : Message :=
  {| message_id := u "m2"; sender := u "+14155550100"; recipient := u "+919876543210";
     ts := 1736935260000000; text := Some (u "hello world"); created_at := 2000 |}.

Definition row3 : Message :=
  {| message_id := u "m0"; sender := u "+919876543210"; recipient := u "+14155550100";
     ts := 1736935200000000; text := None; created_at := 3000 |}.

Definition settings : Settings := {| webhook_secret := Some TEST_SECRET |}.

Definition unconfigured : Settings := {| webhook_secret := None |}.

(** [sign_payload] of the test suite, and the signed request. *)
Definition sign_payload (payload : json) : str :=
  match compute_signature TEST_SECRET (encode (dumps payload)) with
  | Ok signature => signature
  | Raise _ => []
  end.

Definition signed (payload : json) : Request :=
  {| headers := [(u "content-type", u "application/json");
                 (u "x-signature", sign_payload payload)];
     body := encode (dumps payload) |}.

Definition with_signature (signature : str) (payload : json) : Request :=
  {| headers := [(u "x-signature", signature)]; body := encode (dumps payload) |}.

(** Two requests, as the metrics middleware records them. *)
Definition get_messages_call (duration : float) : Call :=
  {| call_method := u "GET"; call_path := u "/messages"; call_status_code := 200;
     call_duration := duration |}.

Definition post_webhook_call (duration : float) : Call :=
  {| call_method := u "POST"; call_path := u "/webhook"; call_status_code := 200;
     call_duration := duration |}.

(** A body that is not JSON, and a request that carries a body with its
    signature. *)
Definition not_json : bytes := encode (u "not json").

Definition sign_raw (raw : bytes) : str :=
  match compute_signature TEST_SECRET raw with
  | Ok signature => signature
  | Raise _ => []
  end.

Definition signed_raw (raw : bytes) : Request :=
  {| headers := [(u "x-signature", sign_raw raw)]; body := raw |}.

(** A row stored under the id of [m1], its other fields unlike those of [m1]. *)
Definition row1_other : Message :=
  {| message_id := u "m1"; sender := u "+14155550100"; recipient := u "+919876543210";
     ts := 1736935260000000; text := Some (u "first"); created_at := 500 |}.

End Fixture.

(** * Properties *)

(** ** Signature validation *)

Lemma hexdigit_ascii n : (n < 16)%N → (hexdigit n <? 128)%N = true.
Proof. intros Hn. unfold hexdigit. apply N.ltb_lt. destruct (n <? 10)%N; lia. Qed.

Lemma hex_cons b bs :
  hex (b :: bs) =
  hexdigit (Byte.to_N b / 16) :: hexdigit (Byte.to_N b mod 16) :: hex bs.
Proof. reflexivity. Qed.

Lemma isascii_hex bs : isascii (hex bs) = true.
Proof.
  induction bs as [|b bs IH]; [done|].
  pose proof (Byte.to_N_bounded b) as Hb.
  rewrite hex_cons. cbn [isascii forallb].
  rewrite !hexdigit_ascii; [exact IH| |].
  - apply N.mod_lt. lia.
  - apply N.Div0.div_lt_upper_bound. lia.
Qed.

Lemma length_hex bs : length (hex bs) = 2 * length bs.
Proof.
  induction bs as [|b bs IH]; [done|]. rewrite hex_cons. cbn [length]. lia.
Qed.

Section SecurityFacts.
Context `{Runtime}.

(** A signature computed by the service is 64 ASCII characters. *)
Lemma compute_signature_shape secret body signature :
  compute_signature secret body = Ok signature →
  isascii signature = true ∧ length signature = 64.
Proof.
  unfold compute_signature. destruct (utf8_encode secret) as [key|e]; [|done].
  cbn. intros [= <-]. split; [apply isascii_hex|].
  by rewrite length_hex, hmac_sha256_length.
Qed.

Lemma verify_signature_ascii secret body expected signature :
  compute_signature secret body = Ok expected →
  isascii signature = true →
  verify_signature secret body signature = Ok (bool_decide (expected = signature)).
Proof.
  intros Hc Ha. unfold verify_signature. rewrite Hc. cbn. unfold compare_digest.
  destruct (compute_signature_shape _ _ _ Hc) as [-> _]. by rewrite Ha.
Qed.

Lemma verify_signature_not_ascii secret body signature :
  isascii signature = false →
  verify_signature secret body signature = Raise TypeError ∨
  verify_signature secret body signature = Raise UnicodeEncodeError.
Proof.
  intros Ha. unfold verify_signature, compute_signature.
  destruct (utf8_encode secret) as [key|e] eqn:He.
  - left. cbn. unfold compare_digest. by rewrite Ha, andb_false_r.
  - right. cbn. f_equal. revert e He. clear. induction secret as [|c s IH]; [done|].
    intros e. cbn [utf8_encode].
    destruct (utf8_encode_char c) as [b|e1] eqn:Hc; cbn.
    + destruct (utf8_encode s) as [bs|e2]; cbn; [done|]. intros [= <-]. by apply IH.
    + intros [= <-]. unfold utf8_encode_char in Hc.
      repeat (case_match; try done); by injection Hc as <-.
Qed.

End SecurityFacts.

Section ValidatorFacts.
Context `{Runtime}.

Lemma truthy_Some (o : option str) : truthy o = true → ∃ s, o = Some s ∧ s ≠ [].
Proof. destruct o as [[|c s]|]; try done. intros _. by eexists. Qed.

Lemma configured_Some settings :
  is_webhook_secret_configured settings = true →
  ∃ secret, webhook_secret settings = Some secret ∧ secret ≠ [].
Proof.
  unfold is_webhook_secret_configured.
  destruct (webhook_secret settings) as [[|c s]|]; try done. intros _. by eexists.
Qed.

Lemma configured_of_secret settings secret :
  webhook_secret settings = Some secret → secret ≠ [] →
  is_webhook_secret_configured settings = true.
Proof.
  unfold is_webhook_secret_configured. intros -> Hne.
  destruct secret as [|c s]; [done|]. apply bool_decide_eq_true. cbn. lia.
Qed.

(** The validator, once a signature is present and a secret configured. *)
Lemma SignatureValidator_call_verify settings request secret signature :
  headers_get (u "X-Signature") (headers request) = Some signature →
  signature ≠ [] →
  webhook_secret settings = Some secret → secret ≠ [] →
  SignatureValidator_call settings request =
  match verify_signature secret (body request) signature with
  | Ok true => Ok (body request)
  | Ok false => Raise invalid_signature
  | Raise e => Raise (Unhandled e)
  end.
Proof.
  intros Hsig Hne Hsec Hsne. unfold SignatureValidator_call.
  rewrite Hsig, (configured_of_secret _ _ Hsec Hsne), Hsec.
  destruct signature as [|c s]; [done|]. cbn [truthy negb].
  by destruct (verify_signature secret (body request) (c :: s)) as [[]|e].
Qed.

(** The three refusals the validator spells out share one response. *)
Lemma authentication_failure_response settings request now db :
  truthy (headers_get (u "X-Signature") (headers request)) = false ∨
  is_webhook_secret_configured settings = false ∨
  (∃ secret signature,
      webhook_secret settings = Some secret ∧
      headers_get (u "X-Signature") (headers request) = Some signature ∧
      verify_signature secret (body request) signature = Ok false) →
  post_webhook settings now request db = (unauthorized, db).
Proof.
  unfold post_webhook, get_validated_body, SignatureValidator_call.
  intros [Hmiss|[Hconf|(secret & signature & Hsec & Hsig & Hver)]].
  - by rewrite Hmiss.
  - rewrite Hconf. by destruct (truthy _).
  - rewrite Hsig, Hsec, Hver.
    destruct (truthy (Some signature)); [|done].
    by destruct (is_webhook_secret_configured settings).
Qed.

(** An ASCII signature other than the digest is refused with 401, whatever
    the body. *)
Lemma wrong_ascii_signature_response settings secret request expected signature now db :
  webhook_secret settings = Some secret →
  compute_signature secret (body request) = Ok expected →
  headers_get (u "X-Signature") (headers request) = Some signature →
  isascii signature = true → signature ≠ expected →
  post_webhook settings now request db = (unauthorized, db).
Proof.
  intros Hsec Hc Hsig Ha Hne. apply authentication_failure_response.
  right; right. exists secret, signature. split; [done|]. split; [done|].
  rewrite (verify_signature_ascii _ _ _ _ Hc Ha).
  by rewrite bool_decide_eq_false_2.
Qed.

(** A signature that is not ASCII, once a secret is configured: the
    comparison raises and the framework answers 500. *)
Lemma non_ascii_signature_response settings secret request signature now db :
  webhook_secret settings = Some secret → secret ≠ [] →
  headers_get (u "X-Signature") (headers request) = Some signature →
  isascii signature = false →
  post_webhook settings now request db = (server_error, db).
Proof.
  intros Hsec Hsne Hsig Ha.
  assert (signature ≠ []) as Hne by (by intros ->).
  unfold post_webhook, get_validated_body.
  rewrite (SignatureValidator_call_verify _ _ _ _ Hsig Hne Hsec Hsne).
  by destruct (verify_signature_not_ascii secret (body request) signature Ha)
    as [-> | ->].
Qed.

(** C2: [verify(secret, rawBody, providedSignature)] should be a truth value
    for every provided signature, and every request whose signature differs
    from the digest should be answered 401.  The code compares with
    [hmac.compare_digest], which raises on a [str] that is not ASCII: a
    signature header with such a character is not answered [False] but with
    an exception, and the request with 500. *)
Theorem verify_signature_raises_on_non_ascii settings secret request signature now db :
  webhook_secret settings = Some secret → secret ≠ [] →
  headers_get (u "X-Signature") (headers request) = Some signature →
  isascii signature = false →
  (∀ b, verify_signature secret (body request) signature ≠ Ok b) ∧
  post_webhook settings now request db = (server_error, db).
Proof.
  intros Hsec Hsne Hsig Ha. split.
  - intros b Hb.
    destruct (verify_signature_not_ascii secret (body request) signature Ha);
      congruence.
  - by apply (non_ascii_signature_response _ secret _ signature).
Qed.

(** C3: a missing signature, an unconfigured secret and a mismatch should be
    indistinguishable.  With a signature that is not ASCII the status tells the
    caller whether a secret is configured: 401 when none is, 500 when one is. *)
Theorem non_ascii_signature_tells_configuration settings request signature now db :
  headers_get (u "X-Signature") (headers request) = Some signature →
  isascii signature = false →
  post_webhook settings now request db =
  (if is_webhook_secret_configured settings then server_error else unauthorized, db).
Proof.
  intros Hsig Ha.
  destruct (is_webhook_secret_configured settings) eqn:Hconf.
  - destruct (configured_Some _ Hconf) as (secret & Hsec & Hsne).
    by apply (non_ascii_signature_response _ secret _ signature).
  - apply authentication_failure_response. by right; left.
Qed.

End ValidatorFacts.

(** ** Ingestion *)

Lemma query_by_message_id_None id db :
  query_by_message_id id db = None ↔ id ∉ message_id <$> db.
Proof.
  unfold query_by_message_id. induction db as [|m db IH]; cbn.
  - split; [|done]. intros _. apply not_elem_of_nil.
  - rewrite not_elem_of_cons. case_bool_decide as Hm.
    + split; [done|]. intros [Hne _]. by destruct Hne.
    + rewrite IH. split; [by intros ?; split; [intros ->|]|by intros [_ ?]].
Qed.

Lemma query_by_message_id_Some id db m :
  query_by_message_id id db = Some m → message_id m = id ∧ m ∈ db.
Proof.
  unfold query_by_message_id. intros Hf. apply find_some in Hf as [Hin Hid].
  apply bool_decide_eq_true in Hid. split; [done|]. by apply list_elem_of_In.
Qed.

Lemma rows_with_id_cons id m db :
  rows_with_id id (m :: db) =
  if bool_decide (message_id m = id) then m :: rows_with_id id db
  else rows_with_id id db.
Proof. unfold rows_with_id. rewrite filter_cons. by case_bool_decide; case_decide. Qed.

Lemma rows_with_id_absent id db : id ∉ message_id <$> db → rows_with_id id db = [].
Proof.
  induction db as [|m db IH]; [done|]. rewrite rows_with_id_cons, fmap_cons.
  rewrite not_elem_of_cons. intros [Hne Hnin].
  rewrite bool_decide_eq_false_2 by done. by apply IH.
Qed.

Lemma rows_with_id_unique id db :
  primary_key db → id ∈ message_id <$> db → length (rows_with_id id db) = 1.
Proof.
  unfold primary_key. induction db as [|m db IH].
  - intros _ Hin. by apply elem_of_nil in Hin.
  - rewrite rows_with_id_cons, fmap_cons, NoDup_cons, elem_of_cons.
    intros [Hnin Hnd] Hin. case_bool_decide as Hm.
    + subst id. by rewrite (rows_with_id_absent _ _ Hnin).
    + destruct Hin as [Heq|Hin]; [done|]. by apply IH.
Qed.

Lemma primary_key_snoc db m :
  primary_key db → message_id m ∉ message_id <$> db → primary_key (db ++ [m]).
Proof.
  unfold primary_key. intros Hnd Hnin. rewrite fmap_app. apply NoDup_app.
  split; [done|]. split; [|apply NoDup_singleton].
  intros x Hx. cbn. rewrite list_elem_of_singleton. by intros ->.
Qed.

Section IngestionFacts.
Context `{Runtime}.

(** A correctly signed request passes the signature dependency. *)
Lemma get_validated_body_signed settings secret request signature :
  webhook_secret settings = Some secret → secret ≠ [] →
  compute_signature secret (body request) = Ok signature →
  headers_get (u "X-Signature") (headers request) = Some signature →
  get_validated_body settings request = Ok (body request).
Proof.
  intros Hsec Hsne Hc Hsig. unfold get_validated_body.
  destruct (compute_signature_shape _ _ _ Hc) as [Ha Hlen].
  assert (signature ≠ []) as Hne by (by intros ->).
  rewrite (SignatureValidator_call_verify _ _ _ _ Hsig Hne Hsec Hsne).
  rewrite (verify_signature_ascii _ _ _ _ Hc Ha). by rewrite bool_decide_eq_true_2.
Qed.

(** On a valid document the handler answers "ok"; it appends the row when
    the [message_id] is new and leaves the table as it is otherwise. *)
Lemma ingest_message_valid validated_body data message_data now db :
  json_loads validated_body = Ok data →
  model_validate data = Ok message_data →
  ingest_message validated_body now db =
  (Ok {| status := u "ok" |},
   if bool_decide (req_message_id message_data ∈ message_id <$> db) then db
   else db ++ [row_of message_data now]).
Proof.
  intros Hl Hv. unfold ingest_message, add_commit. rewrite Hl, Hv. cbn [message_id].
  destruct (query_by_message_id _ db) as [m|] eqn:Hq.
  - apply query_by_message_id_Some in Hq as [Hid Hin]. rewrite bool_decide_eq_true_2; [done|].
    rewrite <- Hid. by apply list_elem_of_fmap_2.
  - apply query_by_message_id_None in Hq. by rewrite bool_decide_eq_false_2.
Qed.

(** On a document that fails validation the handler answers 422 and the
    table is unchanged. *)
Lemma ingest_message_invalid validated_body data e now db :
  json_loads validated_body = Ok data →
  model_validate data = Raise e →
  ingest_message validated_body now db = (Raise (HTTPException 422 (StrOf e)), db).
Proof. intros Hl Hv. unfold ingest_message. by rewrite Hl, Hv. Qed.

(** Every request leaves the primary key intact. *)
Lemma post_webhook_primary_key settings now request db :
  primary_key db → primary_key (post_webhook settings now request db).2.
Proof.
  intros Hpk. unfold post_webhook.
  destruct (get_validated_body settings request) as [validated_body|e]; [|done].
  unfold ingest_message, add_commit.
  destruct (json_loads validated_body) as [data|[]]; try done.
  destruct (model_validate data) as [message_data|e]; [|done].
  destruct (query_by_message_id (req_message_id message_data) db) eqn:Hq; [done|].
  cbn [message_id]. rewrite Hq. cbn.
  apply primary_key_snoc; [done|]. by apply query_by_message_id_None.
Qed.

(** C1: a valid, correctly signed payload ingested twice is answered
    [200 {"status": "ok"}] both times; the second ingestion leaves the table
    unchanged, and exactly one row is stored under its [message_id]. *)
Theorem ingest_twice_one_row settings secret request signature data message_data
    now1 now2 db :
  primary_key db →
  webhook_secret settings = Some secret → secret ≠ [] →
  compute_signature secret (body request) = Ok signature →
  headers_get (u "X-Signature") (headers request) = Some signature →
  json_loads (body request) = Ok data →
  model_validate data = Ok message_data →
  let first := post_webhook settings now1 request db in
  let second := post_webhook settings now2 request first.2 in
  first.1 = ok_response ∧ second.1 = ok_response ∧ second.2 = first.2 ∧
  length (rows_with_id (req_message_id message_data) second.2) = 1.
Proof.
  intros Hpk Hsec Hsne Hc Hsig Hl Hv. cbn zeta.
  assert (∀ now db', post_webhook settings now request db' =
    (ok_response,
     if bool_decide (req_message_id message_data ∈ message_id <$> db') then db'
     else db' ++ [row_of message_data now])) as Hpost.
  { intros now db'. unfold post_webhook.
    rewrite (get_validated_body_signed _ _ _ _ Hsec Hsne Hc Hsig).
    by rewrite (ingest_message_valid _ _ _ _ _ Hl Hv). }
  rewrite !Hpost. cbn [fst snd].
  set (db1 := if bool_decide _ then db else _).
  assert (req_message_id message_data ∈ message_id <$> db1) as Hin.
  { subst db1. case_bool_decide; [done|]. rewrite fmap_app. set_solver. }
  assert (primary_key db1) as Hpk1.
  { subst db1. case_bool_decide; [done|]. by apply primary_key_snoc. }
  rewrite bool_decide_eq_true_2 by done.
  repeat split. by apply rows_with_id_unique.
Qed.

End IngestionFacts.

(** ** Request validation *)

Section ValidationFacts.
Context `{Runtime}.

Lemma ascii_digit_is_digit c : ascii_digit c = true → is_digit c = true.
Proof.
  unfold ascii_digit, is_digit. intros Hc.
  apply andb_true_iff in Hc as [H1 H2]. apply N.leb_le in H1, H2.
  rewrite (proj2 (N.ltb_lt c 128)) by lia. apply andb_true_iff.
  split; by apply N.leb_le.
Qed.

Lemma digits_then_end_digits n rest :
  forallb ascii_digit rest = true → 1 ≤ length rest ≤ S n →
  digits_then_end n rest = true.
Proof.
  revert n. induction rest as [|c rest IH]; intros n Hd Hlen; cbn in Hlen; [lia|].
  cbn in Hd. apply andb_true_iff in Hd as [Hc Hd].
  cbn [digits_then_end]. rewrite (ascii_digit_is_digit _ Hc). cbn [andb].
  destruct rest as [|c' rest']; [done|].
  destruct n as [|n]; [cbn in Hlen; lia|].
  rewrite IH; [by rewrite orb_true_r|done|cbn in *; lia].
Qed.

(** Every number of the specified form is accepted. *)
Lemma E164_PATTERN_match_e164 s : e164 s = true → E164_PATTERN_match s = true.
Proof.
  destruct s as [|plus [|d rest]]; try done. cbn [e164 E164_PATTERN_match].
  intros Hs. apply andb_true_iff in Hs as [Hs Hlen].
  apply andb_true_iff in Hs as [-> Hd]. apply bool_decide_eq_true in Hlen.
  by apply digits_then_end_digits.
Qed.

(** But a number is still accepted with a newline after it. *)
Lemma digits_then_end_newline n rest :
  digits_then_end n rest = true → last rest ≠ Some 10%N →
  digits_then_end n (rest ++ [10%N]) = true.
Proof.
  revert n. induction rest as [|c rest IH]; intros n; [done|].
  cbn [digits_then_end app]. intros Hd Hlast.
  apply andb_true_iff in Hd as [-> Hd]. cbn [andb].
  destruct rest as [|c' rest']; [done|].
  assert (last (c' :: rest') ≠ Some 10%N) as Hlast' by (by rewrite last_cons_cons in Hlast).
  rewrite bool_decide_eq_false_2 in Hd by done.
  rewrite (bool_decide_eq_false_2 (c' :: rest' = [10%N])) in Hd.
  2:{ intros [= -> ->]. by apply Hlast'. }
  destruct n as [|n]; [done|]. cbn [orb] in Hd.
  rewrite (IH n Hd Hlast'). by rewrite orb_true_r.
Qed.

Lemma E164_PATTERN_match_newline s :
  E164_PATTERN_match s = true → last s ≠ Some 10%N →
  E164_PATTERN_match (s ++ [10%N]) = true.
Proof.
  destruct s as [|plus [|d rest]]; try done. cbn [E164_PATTERN_match app].
  intros Hs Hlast. apply andb_true_iff in Hs as [-> Hd].
  apply digits_then_end_newline; [done|].
  destruct rest as [|c rest]; [done|]. by rewrite !last_cons_cons in Hlast.
Qed.

(** And the digits after the first may be any decimal digits of Unicode. *)
Lemma E164_PATTERN_match_unicode_digit c :
  (128 ≤ c)%N → unicode_Nd c = true → E164_PATTERN_match [43%N; 49%N; c] = true.
Proof.
  intros Hc Hnd. cbn. unfold is_digit.
  rewrite (proj2 (N.ltb_ge c 128)) by done. by rewrite Hnd.
Qed.

(** A [ts] given as text fails validation unless the text ends in [Z] and
    reads as a timestamp. *)
Lemma model_validate_ts_text items s :
  dict_get (u "ts") items = Some (JStr s) →
  endswith_Z s = false ∨ datetime_of_str s = None →
  ∃ e, model_validate (JObj items) = Raise e.
Proof.
  intros Hts Hz. unfold model_validate. rewrite Hts.
  assert (required validate_ts (Some (JStr s)) = Invalid) as ->.
  { cbn. unfold validate_ts, validate_ts_utc.
    destruct (endswith_Z s) eqn:Hend; cbn; [|done].
    destruct Hz as [Hz|Hz]; [done|]. by rewrite Hz. }
  repeat case_match; by eexists.
Qed.

(** C5, as the code has it: when [ts] is given as text, a correctly signed
    payload is refused with 422 and nothing is stored unless that text ends
    in the character [Z] and reads as a timestamp. *)
Theorem ts_text_must_end_with_Z settings secret request signature items s now db :
  webhook_secret settings = Some secret → secret ≠ [] →
  compute_signature secret (body request) = Ok signature →
  headers_get (u "X-Signature") (headers request) = Some signature →
  json_loads (body request) = Ok (JObj items) →
  dict_get (u "ts") items = Some (JStr s) →
  endswith_Z s = false ∨ datetime_of_str s = None →
  ∃ e, post_webhook settings now request db =
       ({| status_code := 422; payload := JsonDetail (StrOf e) |}, db).
Proof.
  intros Hsec Hsne Hc Hsig Hl Hts Hz.
  destruct (model_validate_ts_text items s Hts Hz) as [e He].
  exists e. unfold post_webhook.
  rewrite (get_validated_body_signed _ _ _ _ Hsec Hsne Hc Hsig).
  by rewrite (ingest_message_invalid _ _ _ _ _ Hl He).
Qed.

End ValidationFacts.

(** ** Worked examples *)

Section Examples.
Import Fixture.

(** The pattern on some numbers, as [re] answers on them. *)
Example E164_PATTERN_match_examples :
  E164_PATTERN_match (u "+12") = true ∧
  E164_PATTERN_match (u "+1") = false ∧
  E164_PATTERN_match (u "+02") = false ∧
  E164_PATTERN_match (u "+12 ") = false ∧
  E164_PATTERN_match (u "+123456789012345") = true ∧
  E164_PATTERN_match (u "+1234567890123456") = false ∧
  E164_PATTERN_match (u "+12" ++ [10%N]) = true ∧
  E164_PATTERN_match (u "+123456789012345" ++ [10%N]) = true ∧
  E164_PATTERN_match (u "+12" ++ [10%N; 10%N]) = false ∧
  E164_PATTERN_match (10%N :: u "+12") = false ∧
  E164_PATTERN_match (u "+1" ++ [0x663%N]) = true.
Proof. repeat split; vm_compute; reflexivity. Qed.

(** [LIKE] on some patterns, as SQLite answers on them. *)
Example ilike_examples :
  ilike (Some (u "xabcx")) (u "%a_c%") = Some true ∧
  ilike (Some (u "Hello")) (u "%h_llo%") = Some true ∧
  ilike (Some (u "hello")) (u "%HELLO%") = Some true ∧
  ilike (Some (u "abc")) (u "%%%") = Some true ∧
  ilike (Some []) (u "%_%") = Some false ∧
  ilike (Some [233%N]) [37%N; 201%N; 37%N] = Some false ∧
  ilike (Some [97%N; 0%N; 98%N]) (u "%b%") = Some false ∧
  ilike (Some [97%N; 0%N; 98%N]) (u "%a%") = Some true ∧
  ilike (Some [97%N; 0%N; 98%N]) (u "a_b") = Some false ∧
  ilike (Some (u "ab")) [37%N; 97%N; 0%N; 37%N] = Some false ∧
  ilike None (u "%a%") = None.
Proof. repeat split; vm_compute; reflexivity. Qed.

(** The first example of the specification: [m1] ingested twice. *)
Lemma ingest_twice_one_row_m1 :
  let first := post_webhook settings 1000 (signed m1) [] in
  let second := post_webhook settings 2000 (signed m1) first.2 in
  first.1 = ok_response ∧ second.1 = ok_response ∧ second.2 = first.2 ∧
  length (rows_with_id (u "m1") second.2) = 1.
Proof.
  refine (ingest_twice_one_row settings TEST_SECRET (signed m1) (sign_payload m1) m1
            {| req_message_id := u "m1"; req_from_ := u "+919876543210";
               req_to := u "+14155550100"; req_ts := 1736935200000000;
               req_text := Some (u "Hello") |} 1000 2000 [] _ _ _ _ _ _ _).
  - apply NoDup_nil_2.
  - reflexivity.
  - discriminate.
  - vm_compute. reflexivity.
  - vm_compute. reflexivity.
  - vm_compute. reflexivity.
  - vm_compute. reflexivity.
Defined.

(** A signature of one character, U+00E9. *)
Lemma verify_signature_raises_on_e_acute :
  (∀ b, verify_signature TEST_SECRET (body (with_signature [233%N] m1)) [233%N] ≠ Ok b) ∧
  post_webhook settings 0 (with_signature [233%N] m1) [] = (server_error, []).
Proof.
  apply (verify_signature_raises_on_non_ascii settings TEST_SECRET
           (with_signature [233%N] m1) [233%N] 0 []); [reflexivity|discriminate| |];
    vm_compute; reflexivity.
Defined.

Lemma non_ascii_signature_tells_configuration_e_acute :
  post_webhook settings 0 (with_signature [233%N] m1) [] = (server_error, []) ∧
  post_webhook unconfigured 0 (with_signature [233%N] m1) [] = (unauthorized, []).
Proof.
  split.
  - apply (non_ascii_signature_tells_configuration settings
             (with_signature [233%N] m1) [233%N] 0 []); vm_compute; reflexivity.
  - apply (non_ascii_signature_tells_configuration unconfigured
             (with_signature [233%N] m1) [233%N] 0 []); vm_compute; reflexivity.
Defined.

(** C4: a sender or recipient that is not of the form [+[1-9][0-9]{1,14}]
    should be refused with 422 and nothing stored.  The code anchors its
    pattern with [$], which also matches before a final newline: the sender
    ["+12\n"] is not of that form, the pattern matches it, and the correctly
    signed payload that carries it is answered 200 and stored. *)
Theorem number_with_final_newline_is_stored :
  e164 (u "+12" ++ [10%N]) = false ∧
  (∀ runtime : Runtime, E164_PATTERN_match (u "+12" ++ [10%N]) = true) ∧
  post_webhook settings 1000 (signed m1_newline) [] =
  (ok_response,
   [{| message_id := u "m6"; sender := u "+12" ++ [10%N]; recipient := u "+14155550100";
       ts := 1736935200000000; text := Some (u "Hello"); created_at := 1000 |}]).
Proof. split; [reflexivity|]. split; [intros runtime|]; vm_compute; reflexivity. Qed.

(** The second example of the specification: a valid instant written with
    an offset is refused. *)
Lemma ts_text_must_end_with_Z_offset :
  datetime_of_str (u "2025-01-15T10:00:00+05:30") = Some 1736915400000000%Z ∧
  ∃ e, post_webhook settings 0 (signed m1_offset) [] =
       ({| status_code := 422; payload := JsonDetail (StrOf e) |}, []).
Proof.
  split; [vm_compute; reflexivity|].
  refine (ts_text_must_end_with_Z settings TEST_SECRET (signed m1_offset)
            (sign_payload m1_offset) _ (u "2025-01-15T10:00:00+05:30") 0 []
            _ _ _ _ (_ : json_loads _ = Ok m1_offset) _ _).
  - reflexivity.
  - discriminate.
  - vm_compute. reflexivity.
  - vm_compute. reflexivity.
  - vm_compute. reflexivity.
  - vm_compute. reflexivity.
  - left. vm_compute. reflexivity.
Defined.

(** A [ts] given as a number is not text: the test for [Z] is skipped and
    the number is read as Unix time.  The payload is correctly signed, its
    [ts] is written [1736935200], and it is answered 200 and stored. *)
Lemma ts_number_is_stored :
  json_loads (body (signed m1_unix)) = Ok m1_unix ∧
  (∃ items, m1_unix = JObj items ∧ dict_get (u "ts") items = Some (JInt 1736935200)) ∧
  endswith_Z (str_of_int 1736935200) = false ∧
  post_webhook settings 1000 (signed m1_unix) [] =
  (ok_response,
   [{| message_id := u "m5"; sender := u "+919876543210"; recipient := u "+14155550100";
       ts := 1736935200000000; text := Some (u "Hello"); created_at := 1000 |}]).
Proof.
  split; [vm_compute; reflexivity|]. split; [by eexists|].
  split; vm_compute; reflexivity.
Qed.

End Examples.

(** ** The order of a listing *)

Lemma str_leb_refl a : str_leb a a = true.
Proof.
  induction a as [|x a IH]; [done|]. cbn. by rewrite N.eqb_refl, IH, orb_true_r.
Qed.

Lemma str_leb_total a b : str_leb a b = true ∨ str_leb b a = true.
Proof.
  revert b. induction a as [|x a IH]; intros [|y b]; cbn; auto.
  destruct (N.lt_trichotomy x y) as [Hlt|[->|Hgt]].
  - left. by rewrite (proj2 (N.ltb_lt _ _) Hlt).
  - rewrite N.eqb_refl, N.ltb_irrefl. cbn. apply IH.
  - right. by rewrite (proj2 (N.ltb_lt _ _) Hgt).
Qed.

Lemma str_leb_cons x a y b :
  str_leb (x :: a) (y :: b) = true ↔ (x < y)%N ∨ (x = y ∧ str_leb a b = true).
Proof.
  cbn. rewrite orb_true_iff, andb_true_iff, N.ltb_lt, N.eqb_eq. tauto.
Qed.

Lemma str_leb_trans a b c :
  str_leb a b = true → str_leb b c = true → str_leb a c = true.
Proof.
  revert b c. induction a as [|x a IH]; intros [|y b] [|z c]; try done.
  rewrite !str_leb_cons. intros [Hxy|[-> Hab]] [Hyz|[-> Hbc]].
  - left. lia.
  - by left.
  - by left.
  - right. split; [done|]. by apply (IH b).
Qed.

Lemma str_leb_antisym a b : str_leb a b = true → str_leb b a = true → a = b.
Proof.
  revert b. induction a as [|x a IH]; intros [|y b]; try done.
  rewrite !str_leb_cons. intros [Hxy|[-> Hab]] [Hyx|[Heq Hba]]; try lia.
  f_equal. by apply IH.
Qed.

Lemma key_le_spec k1 k2 :
  key_le k1 k2 ↔ (k1.1 < k2.1)%Z ∨ (k1.1 = k2.1 ∧ str_leb k1.2 k2.2 = true).
Proof.
  unfold key_le, key_leb.
  rewrite orb_true_iff, andb_true_iff, Z.ltb_lt, Z.eqb_eq. tauto.
Qed.

Global Instance key_le_total : Total key_le.
Proof.
  intros [t1 i1] [t2 i2]. rewrite !key_le_spec. cbn.
  destruct (Z.lt_trichotomy t1 t2) as [?|[->|?]]; [by left; left| |by right; left].
  destruct (str_leb_total i1 i2); [left|right]; by right.
Qed.

Global Instance key_le_trans : Transitive key_le.
Proof.
  intros [t1 i1] [t2 i2] [t3 i3]. rewrite !key_le_spec. cbn.
  intros [?|[-> H12]] [?|[-> H23]]; [left; lia|by left|by left|].
  right. split; [done|]. by apply (str_leb_trans _ i2).
Qed.

Global Instance key_le_antisym : AntiSymm (=) key_le.
Proof.
  intros [t1 i1] [t2 i2]. rewrite !key_le_spec. cbn.
  intros [?|[-> H12]] [?|[? H21]]; try lia. f_equal. by apply str_leb_antisym.
Qed.

Global Instance row_le_total : Total row_le.
Proof. intros m1 m2. apply (stdpp.base.total key_le). Qed.

Global Instance row_le_trans : Transitive row_le.
Proof. intros m1 m2 m3. apply (transitivity (R := key_le)). Qed.

Lemma order_by_sorted query : StronglySorted row_le (order_by query).
Proof. apply StronglySorted_merge_sort; apply _. Qed.

Lemma order_by_Permutation query : order_by query ≡ₚ query.
Proof. apply merge_sort_Permutation. Qed.

Lemma primary_key_inj db m1 m2 :
  primary_key db → m1 ∈ db → m2 ∈ db → message_id m1 = message_id m2 → m1 = m2.
Proof.
  unfold primary_key. induction db as [|m db IH]; [by intros _ ?%elem_of_nil|].
  rewrite fmap_cons, NoDup_cons, !elem_of_cons.
  intros [Hnin Hnd] [->|H1] [->|H2] Heq; try done.
  - destruct Hnin. rewrite Heq. by apply list_elem_of_fmap_2.
  - destruct Hnin. rewrite <- Heq. by apply list_elem_of_fmap_2.
  - by apply IH.
Qed.

(** With a primary key the order has no ties: the ordered rows do not depend
    on the order in which the table holds them. *)
Lemma order_by_deterministic query query' :
  primary_key query → query ≡ₚ query' → order_by query = order_by query'.
Proof.
  intros Hpk Hperm. apply (StronglySorted_unique_strong row_le).
  - intros m1 m2 H1 H2 H12 H21.
    rewrite order_by_Permutation in H1. rewrite order_by_Permutation, <- Hperm in H2.
    apply (primary_key_inj query); [done..|].
    pose proof (anti_symm key_le _ _ H12 H21) as Hk. by injection Hk.
  - apply order_by_sorted.
  - apply order_by_sorted.
  - by rewrite !order_by_Permutation.
Qed.

Lemma sql_offset_sublist n query : sql_offset n query `sublist_of` query.
Proof. apply sublist_drop. Qed.

Lemma sql_limit_sublist n query : sql_limit n query `sublist_of` query.
Proof. unfold sql_limit. case_match; [done|apply sublist_take]. Qed.

Lemma Forall_sublist {A} (P : A → Prop) l1 l2 :
  Forall P l2 → l1 `sublist_of` l2 → Forall P l1.
Proof.
  rewrite !Forall_forall. intros Hall Hsub x Hx. apply Hall.
  by apply (elem_of_sublist l1 l2).
Qed.

Lemma StronglySorted_sublist {A} (R : relation A) l1 l2 :
  l1 `sublist_of` l2 → StronglySorted R l2 → StronglySorted R l1.
Proof.
  induction 1 as [|x l1 l2 Hsub IH|x l1 l2 Hsub IH]; [done| |].
  - rewrite !StronglySorted_cons. intros [Hall Hs]. split; [|by apply IH].
    rewrite Forall_forall in Hall |- *. intros y Hy. apply Hall.
    by apply (elem_of_sublist l1 l2).
  - rewrite StronglySorted_cons. intros [_ Hs]. by apply IH.
Qed.

(** ** Listing: what the handler selects *)

Lemma filter_all {A} (P : A → Prop) `{∀ x, Decision (P x)} (l : list A) :
  (∀ x, P x) → filter P l = l.
Proof.
  intros HP. induction l as [|x l IH]; [done|].
  rewrite filter_cons, decide_True by done. by rewrite IH.
Qed.

Lemma sql_filter_filter condition query :
  sql_filter condition query = filter (λ m, condition m = Some true) query.
Proof. reflexivity. Qed.

(** The handler returns a page of the selected rows, and their number. *)
Lemma list_messages_selected db limit offset from_ since q :
  list_messages db limit offset from_ since q =
  {| data := page limit offset (selected db from_ since q);
     total := length (selected db from_ since q);
     limit := limit; offset := offset |}.
Proof.
  unfold list_messages, selected, page.
  destruct from_ as [[|c s]|], since as [t|], q as [[|c' s']|];
    cbn [truthy]; rewrite ?sql_filter_filter, ?list_filter_filter;
    cbn [from_condition since_condition q_condition];
    try (rewrite (filter_all (λ _, True ∧ True ∧ True)) by done; reflexivity);
    match goal with
    | |- context [filter ?P db] =>
        match goal with
        | |- context [page _ _ (filter ?Q db)] =>
            assert (filter P db = filter Q db) as ->; [|reflexivity]
        | |- context [length (filter ?Q db)] =>
            assert (filter P db = filter Q db) as ->; [|reflexivity]
        end
    end.
  all: apply list_filter_iff; intros m;
    rewrite ?(inj_iff Some), ?bool_decide_eq_true, ?Z.leb_le; tauto.
Qed.

Lemma page_sorted limit offset rows : StronglySorted response_le (page limit offset rows).
Proof.
  unfold page. apply (StronglySorted_fmap to_response row_le response_le); [by intros m1 m2|].
  apply (StronglySorted_sublist _ _ (order_by rows)); [|apply order_by_sorted].
  etrans; [apply sql_limit_sublist|apply sql_offset_sublist].
Qed.

Lemma selected_Permutation db db' from_ since q :
  db ≡ₚ db' → selected db from_ since q ≡ₚ selected db' from_ since q.
Proof. unfold selected. by intros ->. Qed.

Lemma primary_key_selected db from_ since q :
  primary_key db → primary_key (selected db from_ since q).
Proof.
  unfold primary_key, selected. intros Hnd.
  apply (sublist_NoDup _ (message_id <$> db)); [done|].
  apply fmap_sublist, sublist_filter.
Qed.

(** Within the bounds of [limit] and [offset] the route runs the handler. *)
Lemma get_messages_in_bounds db limit offset from_ since q :
  (1 ≤ limit ≤ 100)%Z → (0 ≤ offset)%Z →
  get_messages db limit offset from_ since q =
  match list_messages_raises db limit offset from_ since q with
  | Some e => Raise (Unhandled e)
  | None => Ok (list_messages db limit offset from_ since q)
  end.
Proof.
  intros [H1 H2] H3. unfold get_messages.
  by rewrite (proj2 (Z.leb_le 1 limit)), (proj2 (Z.leb_le limit 100)),
    (proj2 (Z.leb_le 0 offset)).
Qed.

(** C7: whatever the filters and the pagination, the messages a listing
    returns are in non-decreasing order of [(ts, message_id)]; that order is
    total and without ties between different keys, so with unique message
    ids the listing does not depend on how the table holds its rows. *)
Theorem list_messages_ordered db limit offset from_ since q :
  StronglySorted response_le (data (list_messages db limit offset from_ since q)) ∧
  (∀ k1 k2, key_le k1 k2 ∨ key_le k2 k1) ∧
  (∀ k1 k2, key_le k1 k2 → key_le k2 k1 → k1 = k2) ∧
  (∀ db', primary_key db → db ≡ₚ db' →
     list_messages db' limit offset from_ since q =
     list_messages db limit offset from_ since q).
Proof.
  rewrite list_messages_selected. cbn [data]. split; [apply page_sorted|].
  split; [apply (stdpp.base.total key_le)|]. split; [apply (anti_symm key_le)|].
  intros db' Hpk Hperm. rewrite list_messages_selected.
  pose proof (selected_Permutation _ _ from_ since q Hperm) as Hsel.
  f_equal.
  - unfold page.
    by rewrite (order_by_deterministic _ _ (primary_key_selected _ from_ since q Hpk) Hsel).
  - symmetry. by apply Permutation_length.
Qed.

(** C9: an empty [from] or an empty [q] is the filter left out. *)
Theorem list_messages_empty_filter db limit offset from_ since q :
  list_messages db limit offset (Some []) since q =
  list_messages db limit offset None since q ∧
  list_messages db limit offset from_ since (Some []) =
  list_messages db limit offset from_ since None ∧
  list_messages db limit offset (Some []) None (Some []) =
  {| data := page limit offset db; total := length db; limit := limit; offset := offset |}.
Proof.
  split; [reflexivity|]. split; [reflexivity|].
  rewrite list_messages_selected. unfold selected.
  by rewrite (filter_all _ db).
Qed.

(** C10: with a non-empty [q], whatever its value, no message without
    text is selected, so none is counted and none is returned. *)
Theorem list_messages_q_skips_null_text db limit offset from_ since c q :
  let r := list_messages db limit offset from_ since (Some (c :: q)) in
  Forall (λ m, text m ≠ None) (selected db from_ since (Some (c :: q))) ∧
  total r = length (selected db from_ since (Some (c :: q))) ∧
  Forall (λ m, resp_text m ≠ None) (data r).
Proof.
  cbn zeta. rewrite list_messages_selected. cbn [data total].
  assert (Forall (λ m, text m ≠ None) (selected db from_ since (Some (c :: q)))) as Hall.
  { apply Forall_forall. intros m Hm. unfold selected in Hm.
    apply list_elem_of_filter in Hm as [(_ & _ & Hq) _]. cbn in Hq.
    by destruct (text m). }
  split; [done|]. split; [done|].
  unfold page. apply Forall_fmap.
  apply (Forall_sublist _ _ (order_by (selected db from_ since (Some (c :: q))))).
  - by rewrite order_by_Permutation.
  - etrans; [apply sql_limit_sublist|apply sql_offset_sublist].
Qed.

(** ** Listing: the filters, in the words of the specification *)

Lemma sql_like_percent rest s :
  sql_like (37%N :: rest) s =
  sql_like rest s || match s with
                     | [] => false
                     | _ :: s' => sql_like (37%N :: rest) s'
                     end.
Proof. by destruct s. Qed.

Lemma sql_like_any s : sql_like [37%N] s = true.
Proof.
  induction s as [|c s IH]; rewrite sql_like_percent; [done|].
  by rewrite IH, orb_true_r.
Qed.

Lemma sql_like_literal p rest s :
  p ≠ 37%N → p ≠ 95%N →
  sql_like (p :: rest) s =
  match s with
  | [] => false
  | c :: s' => (like_char p =? like_char c)%N && sql_like rest s'
  end.
Proof.
  intros H37 H95. cbn [sql_like].
  by rewrite (proj2 (N.eqb_neq p 37)), (proj2 (N.eqb_neq p 95)).
Qed.

Lemma sql_like_percent_iff rest s :
  sql_like (37%N :: rest) s = true ↔ ∃ s1 s2, s = s1 ++ s2 ∧ sql_like rest s2 = true.
Proof.
  induction s as [|c s IH]; rewrite sql_like_percent, orb_true_iff.
  - split.
    + intros [Hr|?]; [|done]. by exists [], [].
    + intros (s1 & s2 & Hs & Hr). left.
      symmetry in Hs. apply app_eq_nil in Hs as [_ ->]. done.
  - rewrite IH. split.
    + intros [Hr|(s1 & s2 & -> & Hr)]; [by exists [], (c :: s)|].
      by exists (c :: s1), s2.
    + intros ([|c' s1] & s2 & Hs & Hr); cbn in Hs.
      * left. by rewrite Hs.
      * right. injection Hs as -> ->. by exists s1, s2.
Qed.

Lemma lower_cons c s : lower (c :: s) = ascii_lower c :: lower s.
Proof. reflexivity. Qed.

Lemma sql_like_literals lit rest s :
  37%N ∉ lit → 95%N ∉ lit →
  sql_like (lit ++ rest) s = true ↔
  ∃ s1 s2, s = s1 ++ s2 ∧ like_char <$> s1 = like_char <$> lit ∧ sql_like rest s2 = true.
Proof.
  revert s. induction lit as [|p lit IH]; intros s H37 H95.
  - cbn [app]. split.
    + intros Hr. by exists [], s.
    + intros (s1 & s2 & -> & Hl & Hr). by destruct s1.
  - apply not_elem_of_cons in H37 as [Hp37 H37], H95 as [Hp95 H95].
    cbn [app]. rewrite sql_like_literal by done. destruct s as [|c s].
    + split; [done|]. intros ([|c s1] & s2 & Hs & Hl & _); done.
    + rewrite andb_true_iff, N.eqb_eq, (IH s H37 H95). split.
      * intros (Hpc & s1 & s2 & -> & Hl & Hr). exists (c :: s1), s2.
        split; [done|]. split; [|done]. by rewrite !fmap_cons, Hl, Hpc.
      * intros ([|c' s1] & s2 & Hs & Hl & Hr); [done|].
        injection Hs as -> ->. rewrite !fmap_cons in Hl.
        injection Hl as Hc Hl. split; [done|].
        by exists s1, s2.
Qed.

(** [LIKE] and the case of ASCII letters: two characters that differ by
    case only are one to [LIKE], and a character that is none of U+FFFD,
    U+FFFE and U+FFFF is matched by itself and its other case only. *)
Lemma utf8_read_cases c :
  ((c = 0xFFFE ∨ c = 0xFFFF) ∧ utf8_read c = 0xFFFD)%N ∨
  (c ≠ 0xFFFE ∧ c ≠ 0xFFFF ∧ utf8_read c = c)%N.
Proof.
  unfold utf8_read.
  destruct (N.eqb_spec c 0xFFFE), (N.eqb_spec c 0xFFFF); cbn; auto.
Qed.

Lemma ascii_lower_cases c :
  (65 ≤ c ≤ 90 ∧ ascii_lower c = c + 32)%N ∨ ((c < 65 ∨ 90 < c) ∧ ascii_lower c = c)%N.
Proof.
  unfold ascii_lower.
  destruct (N.leb_spec 65 c), (N.leb_spec c 90); cbn; auto.
Qed.

Lemma like_char_lower a b : ascii_lower a = ascii_lower b → like_char a = like_char b.
Proof.
  unfold like_char.
  pose proof (utf8_read_cases a). pose proof (utf8_read_cases b).
  pose proof (ascii_lower_cases a). pose proof (ascii_lower_cases b).
  pose proof (ascii_lower_cases (utf8_read a)).
  pose proof (ascii_lower_cases (utf8_read b)). lia.
Qed.

Lemma like_char_plain c c' :
  c ≠ 0xFFFD%N → c ≠ 0xFFFE%N → c ≠ 0xFFFF%N →
  like_char c' = like_char c ↔ ascii_lower c' = ascii_lower c.
Proof.
  intros H1 H2 H3. split; [|apply like_char_lower].
  unfold like_char.
  pose proof (utf8_read_cases c). pose proof (utf8_read_cases c').
  pose proof (ascii_lower_cases c). pose proof (ascii_lower_cases c').
  pose proof (ascii_lower_cases (utf8_read c)).
  pose proof (ascii_lower_cases (utf8_read c')). lia.
Qed.

Lemma like_chars_plain lit s :
  0xFFFD%N ∉ lit → 0xFFFE%N ∉ lit → 0xFFFF%N ∉ lit →
  like_char <$> s = like_char <$> lit ↔ lower s = lower lit.
Proof.
  revert s. induction lit as [|c lit IH]; intros [|c' s]; try done.
  rewrite !not_elem_of_cons. intros [H1 Hl1] [H2 Hl2] [H3 Hl3].
  rewrite !fmap_cons, !lower_cons. split; intros [= Hc Hs].
  - change (like_char c' = like_char c) in Hc.
    apply (proj1 (like_char_plain c c' (not_eq_sym H1) (not_eq_sym H2) (not_eq_sym H3)))
      in Hc.
    apply IH in Hs; [|done..].
    by rewrite Hc, Hs.
  - f_equal; [by apply like_char_lower|]. by apply IH.
Qed.

Lemma ascii_lower_idemp c : ascii_lower (ascii_lower c) = ascii_lower c.
Proof.
  unfold ascii_lower. destruct ((65 <=? c) && (c <=? 90))%N eqn:Hc; [|by rewrite Hc].
  apply andb_true_iff in Hc as [H1 H2]. apply N.leb_le in H1, H2.
  rewrite (proj2 (andb_false_iff _ _)); [done|]. right. apply N.leb_gt. lia.
Qed.

Lemma lower_idemp s : lower (lower s) = lower s.
Proof.
  unfold lower. rewrite <- list_fmap_compose. apply list_fmap_ext.
  intros i c _. apply ascii_lower_idemp.
Qed.

Lemma lower_app s1 s2 : lower (s1 ++ s2) = lower s1 ++ lower s2.
Proof. apply fmap_app. Qed.

Lemma ascii_lower_special c w :
  w = 37%N ∨ w = 95%N ∨ w = 0%N ∨ w = 0xFFFD%N ∨ w = 0xFFFE%N ∨ w = 0xFFFF%N →
  ascii_lower c = w → c = w.
Proof.
  unfold ascii_lower. intros Hw.
  destruct ((65 <=? c) && (c <=? 90))%N eqn:Hc; [|done].
  apply andb_true_iff in Hc as [H1 H2]. apply N.leb_le in H1, H2. lia.
Qed.

Lemma plain_lower q : plain q → plain (lower q).
Proof.
  unfold plain, lower. intros (H37 & H95 & H0 & Hd & He & Hf).
  repeat split; intros Hin; apply list_elem_of_fmap in Hin as (c & Hc & Hin);
    symmetry in Hc; apply ascii_lower_special in Hc as ->; auto 10.
Qed.

Lemma c_str_id s : 0%N ∉ s → c_str s = s.
Proof.
  induction s as [|c s IH]; [done|]. rewrite not_elem_of_cons. intros [Hc Hs].
  cbn. rewrite (proj2 (N.eqb_neq c 0)) by done. by rewrite IH.
Qed.

Lemma lower_no_nul s : 0%N ∉ s → 0%N ∉ lower s.
Proof.
  unfold lower. intros Hs Hin. apply list_elem_of_fmap in Hin as (c & Hc & Hin).
  symmetry in Hc. apply ascii_lower_special in Hc as ->; auto.
Qed.

(** Without wildcards and NUL characters, [text ILIKE '%q%'] is containment
    without regard to the case of ASCII letters. *)
Lemma ilike_contains q t :
  plain q → 0%N ∉ t →
  ilike (Some t) (search_pattern q) = Some true ↔ contains_ci q t.
Proof.
  intros Hplain Ht0. destruct (plain_lower q Hplain) as (H37 & H95 & H0 & Hd & He & Hf).
  unfold ilike, search_pattern, contains_ci, contains.
  rewrite (inj_iff Some), !lower_app.
  change (lower (u "%")) with [37%N].
  rewrite (c_str_id (lower t)) by (by apply lower_no_nul).
  rewrite (c_str_id ([37%N] ++ lower q ++ [37%N])).
  2:{ rewrite !elem_of_app, !list_elem_of_singleton. intros [?|[?|?]]; done. }
  cbn [app]. rewrite sql_like_percent_iff. split.
  - intros (pre & s2 & Ht & Hlike).
    apply (sql_like_literals _ _ _ H37 H95) in Hlike as (mid & post & -> & Hmid & _).
    apply like_chars_plain in Hmid; [|done..].
    exists pre, post. rewrite Ht. do 2 f_equal.
    rewrite lower_idemp in Hmid. rewrite <- Hmid.
    pose proof (lower_idemp t) as Hidem. rewrite Ht, !lower_app in Hidem.
    apply app_inj_1 in Hidem as [_ Hidem]; [|by unfold lower; rewrite length_fmap].
    apply app_inj_1 in Hidem as [Hidem _]; [|by unfold lower; rewrite length_fmap].
    done.
  - intros (pre & post & Ht). exists pre, (lower q ++ post). split; [done|].
    apply (sql_like_literals _ _ _ H37 H95). exists (lower q), post.
    split; [done|]. split; [done|]. apply sql_like_any.
Qed.

Lemma selected_selects db from_ since q m :
  from_ ≠ Some [] → q ≠ Some [] →
  (∀ T, since = Some T → utcoffset T = Some 0%Z) →
  (∀ s, q = Some s → plain s) →
  (∀ t, text m = Some t → 0%N ∉ t) →
  m ∈ selected db from_ since q ↔ m ∈ db ∧ selects from_ since q m.
Proof.
  intros Hfrom Hq Hutc Hplain Hnul. unfold selected, selects. rewrite list_elem_of_filter.
  assert (from_condition from_ m ↔ ∀ X, from_ = Some X → sender m = X) as ->.
  { destruct from_ as [[|c s]|]; cbn; [done| |done].
    split; [by intros -> X [= <-]|auto]. }
  assert (since_condition since m ↔ ∀ T, since = Some T → (instant T ≤ ts m)%Z) as ->.
  { destruct since as [t|]; cbn; [|done].
    assert (instant t = wall_clock t) as Hi.
    { unfold instant. rewrite (Hutc t eq_refl). cbn. lia. }
    split; [intros ? T [= <-]; by rewrite Hi|intros Ht; rewrite <- Hi; auto]. }
  assert (q_condition q m ↔ ∀ s, q = Some s → ∃ t, text m = Some t ∧ contains_ci s t)
    as ->; [|tauto].
  destruct q as [[|c s]|]; cbn [q_condition]; [done| |done].
  specialize (Hplain _ eq_refl). split.
  - intros Hlike s' [= <-]. destruct (text m) as [t|]; [|done].
    exists t. split; [done|]. apply ilike_contains; auto.
  - intros Hs. destruct (Hs _ eq_refl) as (t & Ht & Hc). rewrite Ht.
    apply ilike_contains; auto.
Qed.

(** ** Listing: when SQLite refuses a query *)


(** [LIKE] is reached on the rows that meet the conditions on sender and
    timestamp. *)
Lemma list_messages_raises_selected db limit offset from_ since q :
  list_messages_raises db limit offset from_ since q =
  match utf8_encode (if truthy from_ then default [] from_ else []),
        utf8_encode (if truthy q then search_pattern (default [] q) else []) with
  | Raise e, _ | _, Raise e => Some e
  | Ok _, Ok pattern =>
      if (SQLITE_MAX_LIKE_PATTERN_LENGTH <? Z.of_nat (length pattern))%Z
         && negb (bool_decide (selected db from_ since None = []))
      then Some OperationalError
      else if negb (sqlite_integer limit && sqlite_integer offset) then Some OverflowError
      else None
  end.
Proof.
  unfold list_messages_raises.
  match goal with
  | |- context [bool_decide (?rows = [])] =>
      assert (rows = selected db from_ since None) as ->; [|reflexivity]
  end.
  unfold selected.
  destruct from_ as [[|c s]|], since as [t|];
    cbn [truthy default]; rewrite ?sql_filter_filter, ?list_filter_filter;
    cbn [from_condition since_condition q_condition];
    try (rewrite (filter_all (λ _, True ∧ True ∧ True)) by done; reflexivity).
  all: apply list_filter_iff; intros m;
    rewrite ?(inj_iff Some), ?bool_decide_eq_true, ?Z.leb_le; tauto.
Qed.

Lemma list_messages_raises_None db limit offset from_ since q :
  (1 ≤ limit ≤ 100)%Z → (0 ≤ offset < 2 ^ 63)%Z →
  (∀ X, from_ = Some X → ∃ bs, utf8_encode X = Ok bs) →
  (∀ s, q = Some s → encodes_within SQLITE_MAX_LIKE_PATTERN_LENGTH (search_pattern s)) →
  list_messages_raises db limit offset from_ since q = None.
Proof.
  intros Hlimit Hoffset Hfrom Hq. rewrite list_messages_raises_selected.
  assert (∃ bs, utf8_encode (if truthy from_ then default [] from_ else []) = Ok bs)
    as [bs1 ->].
  { destruct from_ as [[|c s]|]; cbn [truthy default];
      [by eexists|by apply Hfrom|by eexists]. }
  assert (encodes_within SQLITE_MAX_LIKE_PATTERN_LENGTH
            (if truthy q then search_pattern (default [] q) else []))
    as (bs2 & -> & Hlen).
  { destruct q as [[|c s]|]; cbn [truthy default]; [|by apply Hq|]; by exists []. }
  rewrite (proj2 (Z.ltb_ge _ _)) by done. cbn [andb].
  unfold sqlite_integer.
  rewrite !(proj2 (Z.leb_le _ _)), !(proj2 (Z.ltb_lt _ _)) by lia. done.
Qed.

(** C6, as the code has it, for a request within the bounds of [limit]
    and [offset]: for a [from] and a [q] that are not empty, a [since] given
    in UTC, and a [q] without the wildcards [%] and [_] (nor a NUL character,
    as the stored texts, nor one of U+FFFD, U+FFFE, U+FFFF) whose pattern
    SQLite accepts, the request is answered with a listing; the rows selected
    are exactly those whose sender is [from], whose timestamp is not before
    [since] and whose text contains [q] (the case of ASCII letters ignored);
    filters combine by intersection; [total] is the number of rows selected,
    and the data are a page of them. *)
Theorem list_messages_filters db limit offset from_ since q :
  (1 ≤ limit ≤ 100)%Z → (0 ≤ offset < 2 ^ 63)%Z →
  from_ ≠ Some [] → q ≠ Some [] →
  (∀ X, from_ = Some X → ∃ bs, utf8_encode X = Ok bs) →
  (∀ T, since = Some T → utcoffset T = Some 0%Z) →
  (∀ s, q = Some s →
        plain s ∧ encodes_within SQLITE_MAX_LIKE_PATTERN_LENGTH (search_pattern s)) →
  (∀ m t, m ∈ db → text m = Some t → 0%N ∉ t) →
  ∃ r, get_messages db limit offset from_ since q = Ok r ∧
    selected db from_ since q `sublist_of` db ∧
    (∀ m, m ∈ selected db from_ since q ↔ m ∈ db ∧ selects from_ since q m) ∧
    (∀ m, m ∈ selected db from_ since q ↔
          m ∈ selected db from_ None None ∧ m ∈ selected db None since None ∧
          m ∈ selected db None None q) ∧
    total r = length (selected db from_ since q) ∧
    data r = page limit offset (selected db from_ since q).
Proof.
  intros Hlimit Hoffset Hfrom Hq Htext Hutc Hplain Hnul.
  exists (list_messages db limit offset from_ since q). split.
  { rewrite get_messages_in_bounds by lia.
    rewrite list_messages_raises_None; [done..|].
    intros s Hs. by destruct (Hplain s Hs). }
  rewrite list_messages_selected.
  cbn [total data]. split; [apply sublist_filter|]. split; [|split; [|done]].
  - assert (∀ s, q = Some s → plain s) as Hplain' by (intros s Hs; by destruct (Hplain s Hs)).
    intros m. split.
    + intros Hm. assert (m ∈ db) as Hdb.
      { unfold selected in Hm. by apply list_elem_of_filter in Hm as [_ ?]. }
      apply selected_selects in Hm; eauto.
    + intros [Hdb Hm]. apply selected_selects; eauto.
  - intros m. unfold selected. rewrite !list_elem_of_filter. cbn. tauto.
Qed.

(** ** The metrics collector *)

Lemma last_n_short {A} n (l : list A) : length l ≤ n → last_n n l = l.
Proof. intros Hl. unfold last_n. by replace (length l - n) with 0 by lia. Qed.

Lemma length_last_n {A} n (l : list A) : length (last_n n l) = length l `min` n.
Proof. unfold last_n. rewrite length_drop. lia. Qed.

Lemma last_n_suffix {A} n (l : list A) : last_n n l `suffix_of` l.
Proof. apply suffix_drop. Qed.

Lemma last_n_snoc {A} n (l : list A) x :
  0 < n → last_n n (last_n n l ++ [x]) = last_n n (l ++ [x]).
Proof.
  intros Hn. destruct (decide (length l ≤ n)) as [Hl|Hl].
  { by rewrite (last_n_short n l). }
  unfold last_n. rewrite !length_app, !length_drop. cbn [length].
  replace (length l - (length l - n) + 1 - n) with 1 by lia.
  rewrite !drop_app_le by (rewrite ?length_drop; lia).
  rewrite drop_drop. do 2 f_equal. lia.
Qed.

(** The key tells the method and the path apart: a path starts with [/]
    and a method holds none. *)
Lemma duration_key_inj method1 path1 method2 path2 :
  47%N ∉ method1 → 47%N ∉ method2 →
  head path1 = Some 47%N → head path2 = Some 47%N →
  duration_key method1 path1 = duration_key method2 path2 →
  method1 = method2 ∧ path1 = path2.
Proof.
  unfold duration_key. change (u "_") with [95%N].
  destruct path1 as [|? rest1]; [done|]. destruct path2 as [|? rest2]; [done|].
  intros H1 H2 [= ->] [= ->]. revert method2 H1 H2.
  induction method1 as [|c1 m1 IH]; intros [|c2 m2] H1 H2 Heq; cbn in Heq.
  - by injection Heq as ->.
  - injection Heq as <- Heq. destruct m2 as [|c m2]; [done|].
    injection Heq as <- _. destruct H2. rewrite !elem_of_cons. auto.
  - injection Heq as -> Heq. destruct m1 as [|c m1]; [done|].
    injection Heq as -> _. destruct H1. rewrite !elem_of_cons. auto.
  - injection Heq as -> Heq. apply not_elem_of_cons in H1 as [_ H1], H2 as [_ H2].
    destruct (IH m2 H1 H2 Heq) as [-> Hp]. done.
Qed.

(** One call appends to the buffer of its key and keeps the last 1000. *)
Lemma record_request_buffer method path status_code duration metrics key :
  buffer (record_request method path status_code duration metrics) key =
  if decide (key = duration_key method path)
  then last_n 1000 (buffer metrics key ++ [duration])
  else buffer metrics key.
Proof.
  unfold buffer, record_request. cbn [http_request_duration_seconds].
  fold (duration_key method path). set (k := duration_key method path).
  set (h := http_request_duration_seconds metrics).
  set (h0 := match h !! k with None => <[k:=[]]> h | Some _ => h end).
  assert (default [] (h0 !! k) = default [] (h !! k)) as Hk.
  { subst h0. destruct (h !! k) eqn:Hhk; [by rewrite Hhk|]. by rewrite lookup_insert_eq. }
  assert (∀ key, key ≠ k → h0 !! key = h !! key) as Hother.
  { intros key' Hne. subst h0. destruct (h !! k); [done|]. by rewrite lookup_insert_ne. }
  rewrite Hk. case_decide as Hkey.
  - subst key. case_bool_decide as Hlen.
    + by rewrite lookup_insert_eq.
    + rewrite lookup_insert_eq. cbn. rewrite last_n_short; [done|lia].
  - case_bool_decide; rewrite ?lookup_insert_ne by done; by rewrite Hother.
Qed.

Lemma record_request_bounded method path status_code duration metrics :
  bounded metrics → bounded (record_request method path status_code duration metrics).
Proof.
  intros Hb key. rewrite record_request_buffer. case_decide; [|apply Hb].
  rewrite length_last_n. lia.
Qed.

Lemma samples_snoc key calls c :
  samples key (calls ++ [c]) =
  if decide (key = duration_key (call_method c) (call_path c))
  then samples key calls ++ [call_duration c]
  else samples key calls.
Proof.
  unfold samples. rewrite filter_app, fmap_app, filter_cons, filter_nil.
  case_decide as H1; case_decide as H2; try done; try (by destruct H2).
  by rewrite app_nil_r.
Qed.

Lemma record_calls_buffer calls key :
  buffer (record_calls calls metrics_init) key = last_n 1000 (samples key calls).
Proof.
  induction calls as [|c calls IH] using rev_ind; [done|].
  unfold record_calls. rewrite fold_left_app. cbn [fold_left].
  fold (record_calls calls metrics_init). unfold record_call at 1.
  rewrite record_request_buffer, samples_snoc, IH.
  case_decide; [|done]. apply last_n_snoc. lia.
Qed.

(** C8: after any run of [record_request] calls, the buffer of a key holds
    the most recent samples recorded under it, at most 1000 of them; older
    samples are gone; and a single call keeps every buffer within 1000. *)
Theorem record_request_keeps_last_1000 calls key :
  let metrics := record_calls calls metrics_init in
  buffer metrics key = last_n 1000 (samples key calls) ∧
  length (buffer metrics key) = length (samples key calls) `min` 1000 ∧
  buffer metrics key `suffix_of` samples key calls ∧
  (∀ method path status_code duration,
     bounded (record_request method path status_code duration metrics)).
Proof.
  cbn zeta. rewrite record_calls_buffer.
  split; [done|]. split; [apply length_last_n|]. split; [apply last_n_suffix|].
  intros method path status_code duration. apply record_request_bounded.
  intros k. rewrite record_calls_buffer, length_last_n. lia.
Qed.

Section ListingExamples.
Import Fixture.

(** A listing filtered by sender, time and text. *)
Lemma list_messages_filters_example :
  ∃ r, get_messages [row2; row1; row3] 50 0
         (Some (u "+919876543210")) (Some (utc 1736935200000000)) (Some (u "HELLO")) = Ok r ∧
    selected [row2; row1; row3]
      (Some (u "+919876543210")) (Some (utc 1736935200000000)) (Some (u "HELLO")) = [row1] ∧
    total r = 1 ∧ data r = [to_response row1].
Proof.
  destruct (list_messages_filters [row2; row1; row3] 50 0
    (Some (u "+919876543210")) (Some (utc 1736935200000000)) (Some (u "HELLO")))
    as (r & Hr & _ & _ & _ & Htotal & Hdata).
  - lia.
  - lia.
  - discriminate.
  - discriminate.
  - intros X [= <-]. eexists. vm_compute. reflexivity.
  - by intros T [= <-].
  - intros s [= <-]. split.
    + repeat split; by apply (bool_decide_unpack _).
    + eexists. split; [vm_compute; reflexivity|]. vm_compute. discriminate.
  - intros m t Hm. revert m Hm t.
    apply (Forall_forall (λ m : Message, ∀ t, text m = Some t → 0%N ∉ t)).
    repeat constructor; intros t [= <-]; by apply (bool_decide_unpack _).
  - exists r. split; [done|]. rewrite Htotal, Hdata.
    split; [|split]; vm_compute; reflexivity.
Defined.

(** C6 fails where a filter is empty, and where [q] holds a wildcard: with
    [from=] every row is selected although none has an empty sender, and with
    [q=H_llo] the row whose text is [Hello] is selected. *)
Lemma list_messages_empty_from_and_wildcard :
  total <$> get_messages [row1] 50 0 (Some []) None None = Ok 1 ∧
  filter (λ m, sender m = []) [row1] = [] ∧
  total <$> get_messages [row1] 50 0 None None (Some (u "H_llo")) = Ok 1 ∧
  ¬ contains_ci (u "H_llo") (u "Hello").
Proof.
  split; [vm_compute; reflexivity|]. split; [vm_compute; reflexivity|].
  split; [vm_compute; reflexivity|].
  intros (pre & post & Heq).
  assert (pre = []) as ->.
  { apply (f_equal length) in Heq. rewrite !length_app in Heq.
    destruct pre; [done|]. cbn in Heq. lia. }
  discriminate Heq.
Qed.

(** The offset of [since] is dropped.  [row2] is of 10:01:00 UTC; asked for
    the messages since 10:00:01 UTC the handler selects it, and asked for the
    messages since 15:30:01+05:30, the same instant, it selects none. *)
Example list_messages_since_offset :
  let since_utc := utc 1736935201000000 in
  let since_offset := {| wall_clock := 1736955001000000; utcoffset := Some 19800000000%Z |} in
  instant since_offset = instant since_utc ∧
  total <$> get_messages [row2] 50 0 None (Some since_utc) None = Ok 1 ∧
  total <$> get_messages [row2] 50 0 None (Some since_offset) None = Ok 0.
Proof. repeat split; vm_compute; reflexivity. Qed.

(** [LIKE] reads U+FFFE and U+FFFF as U+FFFD: the text of [a], U+FFFF and
    [b] is found by a [q] of U+FFFE. *)
Example list_messages_replacement_character :
  let row :=
    {| message_id := u "m8"; sender := u "+919876543210"; recipient := u "+14155550100";
       ts := 1736935200000000; text := Some [97%N; 0xFFFF%N; 98%N]; created_at := 1000 |} in
  total <$> get_messages [row] 50 0 None None (Some [0xFFFE%N]) = Ok 1 ∧
  ¬ contains_ci [0xFFFE%N] [97%N; 0xFFFF%N; 98%N].
Proof.
  split; [vm_compute; reflexivity|].
  intros ([|a [|b [|c pre]]] & post & Heq); cbn in Heq; try discriminate Heq.
  injection Heq as _ _ _ Heq. by destruct pre.
Qed.

(** What SQLite and its driver refuse is answered 500: a [q] of 49999
    characters once a row is there to test, and an [offset] of [2^63]; on
    an empty table the long [q] is never tested.  A [limit] and an [offset]
    that are both out of bounds are both named. *)
Example get_messages_refused :
  get_messages [row1] 50 0 None None (Some (replicate (Z.to_nat 49999) 97%N))
  = Raise (Unhandled OperationalError) ∧
  total <$> get_messages [] 50 0 None None (Some (replicate (Z.to_nat 49999) 97%N)) = Ok 0 ∧
  total <$> get_messages [row1] 50 0 None None (Some (replicate (Z.to_nat 49998) 97%N)) = Ok 0 ∧
  get_messages [row1] 50 (2 ^ 63) None None None = Raise (Unhandled OverflowError) ∧
  data <$> get_messages [row1] 50 (2 ^ 63 - 1) None None None = Ok [] ∧
  get_messages [row1] 0 (-1) None None None
  = Raise (HTTPException 422 (StrOf (ValidationError [u "limit"; u "offset"]))).
Proof. repeat split; vm_compute; reflexivity. Qed.

(** Rows of one timestamp come in the order of their message ids, and a
    page is cut from the ordered rows. *)
Example list_messages_order_example :
  data (list_messages [row2; row1; row3] 50 0 None None None) =
  to_response <$> [row3; row1; row2] ∧
  data (list_messages [row2; row1; row3] 1 1 None None None) = [to_response row1] ∧
  total (list_messages [row2; row1; row3] 1 1 None None None) = 3.
Proof. repeat split; vm_compute; reflexivity. Qed.

(** A text is searched up to its first NUL character: the text [a\0b] is
    not found by [q=b]. *)
Example list_messages_text_after_nul :
  let row :=
    {| message_id := u "m7"; sender := u "+919876543210"; recipient := u "+14155550100";
       ts := 1736935200000000; text := Some [97%N; 0%N; 98%N]; created_at := 1000 |} in
  total (list_messages [row] 50 0 None None (Some (u "b"))) = 0 ∧
  contains_ci (u "b") [97%N; 0%N; 98%N].
Proof. split; [vm_compute; reflexivity|]. by exists [97%N; 0%N], []. Qed.

End ListingExamples.

Section MetricsExamples.
Import Fixture.

(** Each key has its own buffer, in the order of the calls. *)
Example record_calls_example :
  let metrics :=
    record_calls [get_messages_call 0.5; post_webhook_call 0.25; get_messages_call 0.125]
      metrics_init in
  buffer metrics (u "GET_/messages") = [0.5; 0.125]%float ∧
  buffer metrics (u "POST_/webhook") = [0.25]%float ∧
  http_requests_total metrics !! u "GET_/messages_200" = Some 2%Z.
Proof. repeat split; vm_compute; reflexivity. Qed.

(** The 1001st sample of a key pushes the first one out. *)
Example record_calls_1001 :
  let calls := get_messages_call 1 :: replicate 1000 (get_messages_call 0.5) in
  buffer (record_calls calls metrics_init) (u "GET_/messages") =
  replicate 1000 0.5%float.
Proof.
  cbn zeta. rewrite record_calls_buffer. vm_compute. reflexivity.
Qed.

End MetricsExamples.

(** * Further properties of the code *)

Set Warnings "-clear-no-such-hyp".

(** ** [app/core/security.py] *)

Lemma hexdigit_is_hex n : (n < 16)%N → is_hex_digit (hexdigit n) = true.
Proof.
  intros Hn. unfold hexdigit, is_hex_digit.
  destruct (n <? 10)%N eqn:H10; [apply N.ltb_lt in H10|apply N.ltb_ge in H10];
    apply orb_true_iff; [left|right]; apply andb_true_iff; split; apply N.leb_le; lia.
Qed.

Lemma hex_is_hex bs : forallb is_hex_digit (hex bs) = true.
Proof.
  induction bs as [|b bs IH]; [done|].
  pose proof (Byte.to_N_bounded b) as Hb.
  rewrite hex_cons. cbn [forallb].
  rewrite !hexdigit_is_hex; [exact IH| |].
  - apply N.mod_lt. lia.
  - apply N.Div0.div_lt_upper_bound. lia.
Qed.

Section SecurityProperties.
Context `{Runtime}.

(** X1: on a signature of ASCII characters, [verify_signature] returns a
    truth value, and it is [True] exactly when the signature is the one
    [compute_signature] computes for the secret and the body. *)
Theorem verify_signature_iff secret body expected signature :
  compute_signature secret body = Ok expected →
  isascii signature = true →
  (∃ b, verify_signature secret body signature = Ok b) ∧
  (verify_signature secret body signature = Ok true ↔ signature = expected).
Proof.
  intros Hc Ha. rewrite (verify_signature_ascii _ _ _ _ Hc Ha).
  split; [by eexists|]. split.
  - intros [= Hb]. by apply bool_decide_eq_true in Hb.
  - intros ->. by rewrite bool_decide_eq_true_2.
Qed.

(** X2: a signature that [compute_signature] returns is 64 characters of
    ["0123456789abcdef"]; the function fails only on a secret that cannot be
    encoded as UTF-8, and then with [UnicodeEncodeError]. *)
Theorem compute_signature_hex secret body :
  match compute_signature secret body with
  | Ok signature =>
      length signature = 64 ∧ forallb is_hex_digit signature = true ∧
      ∃ key, utf8_encode secret = Ok key
  | Raise e => e = UnicodeEncodeError ∧ utf8_encode secret = Raise UnicodeEncodeError
  end.
Proof.
  unfold compute_signature. destruct (utf8_encode secret) as [key|e] eqn:He; cbn.
  - rewrite length_hex, hmac_sha256_length. split; [done|].
    split; [apply hex_is_hex|by eexists].
  - assert (e = UnicodeEncodeError) as ->; [|done].
    revert e He. induction secret as [|c s IH]; [done|]. intros e. cbn [utf8_encode].
    destruct (utf8_encode_char c) as [b|e1] eqn:Hc; cbn.
    + destruct (utf8_encode s) as [bs|e2]; cbn; [done|]. intros [= <-]. by apply IH.
    + intros [= <-]. unfold utf8_encode_char in Hc.
      repeat (case_match; try done); by injection Hc as <-.
Qed.

(** X3: a request without signature (or with an empty one), a request to a
    service without secret, and a request whose ASCII signature is not the
    digest of its body are all answered 401 "invalid signature"; the table
    is left as it is, whatever the body holds. *)
Theorem refused_request_changes_nothing settings request now db :
  truthy (headers_get (u "X-Signature") (headers request)) = false ∨
  is_webhook_secret_configured settings = false ∨
  (∃ secret expected signature,
      webhook_secret settings = Some secret ∧
      compute_signature secret (body request) = Ok expected ∧
      headers_get (u "X-Signature") (headers request) = Some signature ∧
      isascii signature = true ∧ signature ≠ expected) →
  post_webhook settings now request db = (unauthorized, db).
Proof.
  intros [Hmiss|[Hconf|(secret & expected & signature & Hsec & Hc & Hsig & Ha & Hne)]].
  - apply authentication_failure_response. by left.
  - apply authentication_failure_response. by right; left.
  - by apply (wrong_ascii_signature_response _ secret _ expected signature).
Qed.

End SecurityProperties.

(** ** [app/schemas/message.py] *)

Section SchemaProperties.
Context `{Runtime}.

Lemma validate_message_id_Valid v s :
  validate_message_id v = Valid s ↔
  v = Some (JStr s) ∧ is_text s = true ∧ 1 ≤ length s ≤ 255.
Proof.
  unfold validate_message_id. split.
  - destruct v as [[]|]; try done.
    destruct (is_text _) eqn:Ht; [|done]. cbn.
    case_bool_decide; [|done]. case_bool_decide; [|done]. cbn. by intros [= ->].
  - intros (-> & -> & H1 & H2). cbn. by rewrite !bool_decide_eq_true_2.
Qed.

Lemma validate_from_e164_Valid v s :
  required validate_from_e164 v = Valid s ↔
  v = Some (JStr s) ∧ E164_PATTERN_match s = true.
Proof.
  unfold required, validate_from_e164. split.
  - destruct v as [v|]; [|done]. destruct (json_truthy v); [|done]. cbn.
    destruct v; try done. destruct (E164_PATTERN_match _) eqn:He; [|done].
    cbn. by intros [= ->].
  - intros [-> He]. assert (json_truthy (JStr s) = true) as ->.
    { destruct s as [|c s]; [by cbn in He|reflexivity]. }
    cbn. by rewrite He.
Qed.

Lemma validate_to_e164_Valid v s :
  required validate_to_e164 v = Valid s ↔
  v = Some (JStr s) ∧ E164_PATTERN_match s = true.
Proof.
  unfold required, validate_to_e164. split.
  - destruct v as [[]|]; try done.
    destruct (json_truthy _); [|done]. destruct (E164_PATTERN_match _) eqn:He; [|done].
    cbn. by intros [= ->].
  - intros [-> He]. assert (json_truthy (JStr s) = true) as ->.
    { destruct s as [|c s]; [by cbn in He|reflexivity]. }
    cbn. by rewrite He.
Qed.

Lemma validate_ts_Valid v t :
  required validate_ts v = Valid t ↔
  ∃ j, v = Some j ∧ datetime_validate j = Some t ∧ ∀ s, j = JStr s → endswith_Z s = true.
Proof.
  unfold required, validate_ts, validate_ts_utc. split.
  - destruct v as [j|]; [|done]. intros Hv. exists j. split; [done|].
    assert (∀ s, j = JStr s → endswith_Z s = true) as Hz.
    { intros s ->. by destruct (endswith_Z s). }
    split; [|done].
    assert (match datetime_validate j with
            | Some t => Valid t
            | None => Invalid
            end = Valid t) as Hd.
    { destruct j; try done. by rewrite (Hz _ eq_refl) in Hv. }
    destruct (datetime_validate j); [|done]. by injection Hd as ->.
  - intros (j & -> & Hd & Hz). destruct j; try by rewrite Hd.
    rewrite (Hz _ eq_refl). cbn [negb]. by rewrite Hd.
Qed.

Lemma validate_text_Valid v o :
  validate_text v = Valid o ↔
  match o with
  | None => v = None ∨ v = Some JNull
  | Some t => v = Some (JStr t) ∧ is_text t = true ∧ length t ≤ 4096
  end.
Proof.
  unfold validate_text. split.
  - destruct v as [[]|]; try done; try (intros [= <-]; auto).
    destruct (is_text _) eqn:Ht; [|done]. cbn. case_bool_decide; [|done].
    by intros [= <-].
  - destruct o as [t|].
    + intros (-> & -> & Hl). cbn. by rewrite bool_decide_eq_true_2.
    + by intros [-> | ->].
Qed.

Lemma model_validate_Ok_fields items message_data :
  model_validate (JObj items) = Ok message_data ↔
  validate_message_id (dict_get (u "message_id") items) = Valid (req_message_id message_data) ∧
  required validate_from_e164 (get_from items) = Valid (req_from_ message_data) ∧
  required validate_to_e164 (dict_get (u "to") items) = Valid (req_to message_data) ∧
  required validate_ts (dict_get (u "ts") items) = Valid (req_ts message_data) ∧
  validate_text (dict_get (u "text") items) = Valid (req_text message_data).
Proof.
  unfold model_validate. split.
  - destruct (validate_message_id _), (required validate_from_e164 _),
      (required validate_to_e164 _), (required validate_ts _), (validate_text _);
      try done. by intros [= <-].
  - intros (-> & -> & -> & -> & ->). by destruct message_data.
Qed.

(** X4: [model_validate] accepts a document exactly when it is an object
    whose [message_id] is a text of 1 to 255 characters, whose [from] and
    [to] are texts that match the pattern, whose [ts] reads as a timestamp (and ends
    in [Z] when it is a text) and whose [text] is absent, null or a text of at
    most 4096 characters; the validated request holds these very values. *)
Theorem model_validate_accepts data message_data :
  model_validate data = Ok message_data ↔
  ∃ items, data = JObj items ∧ document_of items message_data.
Proof.
  split.
  - destruct data; try done. intros Hv. eexists. split; [done|].
    apply model_validate_Ok_fields in Hv as (H1 & H2 & H3 & H4 & H5).
    apply validate_message_id_Valid in H1. apply validate_from_e164_Valid in H2.
    apply validate_to_e164_Valid in H3. apply validate_ts_Valid in H4.
    apply validate_text_Valid in H5. unfold document_of.
    destruct (req_text message_data); naive_solver.
  - intros (items & -> & H1 & H2 & H3 & H4 & H5).
    apply model_validate_Ok_fields.
    rewrite validate_message_id_Valid, validate_from_e164_Valid,
      validate_to_e164_Valid, validate_ts_Valid, validate_text_Valid.
    destruct (req_text message_data); naive_solver.
Qed.

End SchemaProperties.

(** ** [app/api/webhook.py] *)

Section WebhookProperties.
Context `{Runtime}.

Lemma model_validate_valid_row data message_data now :
  model_validate data = Ok message_data → valid_row (row_of message_data now).
Proof.
  destruct data; try done.
  intros (H1 & H2 & H3 & _ & H5)%model_validate_Ok_fields.
  apply validate_message_id_Valid in H1 as (_ & _ & H1).
  apply validate_from_e164_Valid in H2 as [_ H2].
  apply validate_to_e164_Valid in H3 as [_ H3].
  apply validate_text_Valid in H5.
  unfold valid_row. cbn. repeat split; try done; try lia.
  intros t Ht. rewrite Ht in H5. by destruct H5 as (_ & _ & ?).
Qed.

Lemma get_validated_body_Ok settings request validated_body :
  get_validated_body settings request = Ok validated_body →
  validated_body = body request.
Proof.
  unfold get_validated_body, SignatureValidator_call.
  destruct (truthy _); [|done]. destruct (is_webhook_secret_configured _); [|done].
  cbn. destruct (webhook_secret settings); [|done].
  destruct (headers_get _ _); [|done].
  destruct (verify_signature _ _ _) as [[]|]; try done. cbn. by intros [= <-].
Qed.

(** What a request does to the table: nothing, or it appends the row of
    the document it carries, under a [message_id] that is new. *)
Lemma post_webhook_cases settings now request db :
  (∃ response, post_webhook settings now request db = (response, db)) ∨
  (∃ data message_data,
      json_loads (body request) = Ok data ∧
      model_validate data = Ok message_data ∧
      (req_message_id message_data ∉ message_id <$> db) ∧
      post_webhook settings now request db =
      (ok_response, db ++ [row_of message_data now])).
Proof.
  unfold post_webhook.
  destruct (get_validated_body settings request) as [validated_body|e] eqn:Hb;
    [|left; by eexists].
  apply get_validated_body_Ok in Hb as ->.
  destruct (json_loads (body request)) as [data|e] eqn:Hl.
  2:{ left. unfold ingest_message. rewrite Hl. destruct e; by eexists. }
  destruct (model_validate data) as [message_data|e] eqn:Hv.
  2:{ left. rewrite (ingest_message_invalid _ _ _ _ _ Hl Hv). by eexists. }
  rewrite (ingest_message_valid _ _ _ _ _ Hl Hv). case_bool_decide as Hid.
  - left. by eexists.
  - right. by exists data, message_data.
Qed.

(** X5: a [POST /webhook] request never changes or removes a stored row: it
    leaves the table as it is, or, answering 200, appends one row under a
    [message_id] the table did not hold, created at the time of the request
    and with fields that meet the schema.  An answer other than 200 leaves
    the table as it is. *)
Theorem post_webhook_appends settings now request db :
  let response := (post_webhook settings now request db).1 in
  let db' := (post_webhook settings now request db).2 in
  (db' = db ∨
   ∃ row, db' = db ++ [row] ∧ (message_id row ∉ message_id <$> db) ∧
          created_at row = now ∧ valid_row row ∧ response = ok_response) ∧
  (status_code response ≠ 200%Z → db' = db).
Proof.
  cbn zeta.
  destruct (post_webhook_cases settings now request db)
    as [[response ->]|(data & message_data & Hl & Hv & Hid & ->)]; cbn [fst snd].
  - split; [by left|done].
  - split; [|done]. right. exists (row_of message_data now).
    repeat split; try done. all: by apply (model_validate_valid_row data).
Qed.

Lemma serve_all_snoc settings calls call db :
  serve_all settings (calls ++ [call]) db =
  serve settings (serve_all settings calls db) call.
Proof. unfold serve_all. by rewrite fold_left_app. Qed.

(** X6: whatever requests the service has served, starting from an empty
    table, no two stored rows share a [message_id], and every stored row
    meets the schema: a [message_id] of 1 to 255 characters, a sender and a
    recipient that match the pattern, a text of at most 4096 characters. *)
Theorem served_table_invariant settings calls :
  primary_key (serve_all settings calls []) ∧
  Forall valid_row (serve_all settings calls []).
Proof.
  induction calls as [|[now request] calls [IHpk IHvalid]] using rev_ind.
  - split; [apply NoDup_nil_2|constructor].
  - rewrite serve_all_snoc. unfold serve. cbn [fst snd].
    split; [by apply post_webhook_primary_key|].
    destruct (post_webhook_cases settings now request (serve_all settings calls []))
      as [[response ->]|(data & message_data & Hl & Hv & Hid & ->)]; cbn [snd]; [done|].
    apply Forall_app. split; [done|]. constructor; [|constructor].
    by apply (model_validate_valid_row data).
Qed.

(** X7: the first writer wins.  A valid, correctly signed document whose
    [message_id] is already stored is answered 200 and changes nothing, even
    when its other fields differ from the stored row. *)
Theorem stored_message_id_wins settings secret request signature data message_data
    now db :
  webhook_secret settings = Some secret → secret ≠ [] →
  compute_signature secret (body request) = Ok signature →
  headers_get (u "X-Signature") (headers request) = Some signature →
  json_loads (body request) = Ok data →
  model_validate data = Ok message_data →
  req_message_id message_data ∈ message_id <$> db →
  post_webhook settings now request db = (ok_response, db).
Proof.
  intros Hsec Hsne Hc Hsig Hl Hv Hid. unfold post_webhook.
  rewrite (get_validated_body_signed _ _ _ _ Hsec Hsne Hc Hsig).
  rewrite (ingest_message_valid _ _ _ _ _ Hl Hv).
  by rewrite bool_decide_eq_true_2.
Qed.

(** X8: a correctly signed body that is not JSON is answered 422 with the
    detail "Invalid JSON"; a body that is not even text makes [json.loads]
    raise [UnicodeDecodeError], which the handler does not catch: the answer
    is 500.  Nothing is stored either way. *)
Theorem unreadable_body_response settings secret request signature e now db :
  webhook_secret settings = Some secret → secret ≠ [] →
  compute_signature secret (body request) = Ok signature →
  headers_get (u "X-Signature") (headers request) = Some signature →
  json_loads (body request) = Raise e →
  post_webhook settings now request db =
  (match e with
   | JSONDecodeError =>
       {| status_code := 422; payload := JsonDetail (Literal (u "Invalid JSON")) |}
   | _ => server_error
   end, db).
Proof.
  intros Hsec Hsne Hc Hsig Hl. unfold post_webhook, ingest_message.
  rewrite (get_validated_body_signed _ _ _ _ Hsec Hsne Hc Hsig), Hl.
  by destruct e.
Qed.

Lemma query_by_message_id_snoc id db m :
  id ∉ message_id <$> db → message_id m = id →
  query_by_message_id id (db ++ [m]) = Some m.
Proof.
  intros Hid Hm. unfold query_by_message_id.
  induction db as [|m' db IH]; cbn.
  - by rewrite bool_decide_eq_true_2.
  - rewrite fmap_cons, not_elem_of_cons in Hid. destruct Hid as [Hne Hid].
    rewrite bool_decide_eq_false_2 by done. by apply IH.
Qed.

(** X9: what is ingested can be read back.  After a valid, correctly signed
    document with a new [message_id] is ingested, the table holds its row
    under that id, [GET /messages] counts one message more, a listing filtered
    by its sender selects it, and the first page of a listing whose limit
    exceeds the number of rows returns it with the fields of the document. *)
Theorem ingested_message_is_listed settings secret request signature document message_data
    now db limit :
  webhook_secret settings = Some secret → secret ≠ [] →
  compute_signature secret (body request) = Ok signature →
  headers_get (u "X-Signature") (headers request) = Some signature →
  json_loads (body request) = Ok document →
  model_validate document = Ok message_data →
  req_message_id message_data ∉ message_id <$> db →
  (length db < Z.to_nat limit) →
  let db' := (post_webhook settings now request db).2 in
  let row := row_of message_data now in
  query_by_message_id (req_message_id message_data) db' = Some row ∧
  total (list_messages db' limit 0 None None None) = S (length db) ∧
  row ∈ selected db' (Some (req_from_ message_data)) None None ∧
  to_response row ∈ data (list_messages db' limit 0 None None None).
Proof.
  intros Hsec Hsne Hc Hsig Hl Hv Hid Hlimit. cbn zeta.
  assert (post_webhook settings now request db =
          (ok_response, db ++ [row_of message_data now])) as ->.
  { unfold post_webhook.
    rewrite (get_validated_body_signed _ _ _ _ Hsec Hsne Hc Hsig).
    rewrite (ingest_message_valid _ _ _ _ _ Hl Hv).
    by rewrite bool_decide_eq_false_2. }
  cbn [snd]. set (row := row_of message_data now).
  assert (row ∈ db ++ [row]) as Hin by (apply elem_of_app; right; by left).
  split; [|split; [|split]].
  - by apply query_by_message_id_snoc.
  - rewrite list_messages_selected. cbn [total]. unfold selected.
    rewrite filter_all by done. rewrite length_app. cbn. lia.
  - unfold selected. apply list_elem_of_filter. split; [|done].
    assert (E164_PATTERN_match (req_from_ message_data) = true) as He.
    { by destruct (model_validate_valid_row _ _ now Hv) as (_ & ? & _). }
    destruct (req_from_ message_data) as [|c s] eqn:Hfrom; [done|].
    cbn. by rewrite Hfrom.
  - rewrite list_messages_selected. cbn [data]. unfold page, selected.
    rewrite filter_all by done. apply list_elem_of_fmap_2.
    unfold sql_offset, sql_limit. change (Z.to_nat 0) with 0. rewrite drop_0.
    rewrite (proj2 (Z.ltb_ge limit 0)) by lia.
    rewrite take_ge.
    + by rewrite order_by_Permutation.
    + rewrite (Permutation_length (order_by_Permutation _)), length_app. cbn. lia.
Qed.

End WebhookProperties.

(** ** [app/schemas/message.py]: the pattern *)

Section PatternProperties.
Context `{Runtime}.

Lemma digits_then_end_iff n rest :
  digits_then_end n rest = true ↔
  ∃ ds, (rest = ds ∨ rest = ds ++ [10%N]) ∧ 1 ≤ length ds ≤ S n ∧
        forallb is_digit ds = true.
Proof.
  revert n. induction rest as [|c rest IH]; intros n.
  { split; [done|]. intros ([|d ds] & [Hr|Hr] & Hlen & _); cbn in Hlen; try lia; done. }
  cbn [digits_then_end]. rewrite andb_true_iff, !orb_true_iff, !bool_decide_eq_true.
  split.
  - intros [Hc [[->| ->]|Hrec]].
    + exists [c]. cbn. rewrite Hc. repeat split; auto; lia.
    + exists [c]. cbn. rewrite Hc. repeat split; auto; lia.
    + destruct n as [|n]; [done|].
      apply IH in Hrec as (ds & Hr & Hlen & Hd). exists (c :: ds). cbn.
      rewrite Hc, Hd. repeat split; try lia.
      destruct Hr as [-> | ->]; auto.
  - intros ([|d ds] & Hr & Hlen & Hd); [cbn in Hlen; lia|].
    cbn in Hd. apply andb_true_iff in Hd as [Hd Hds].
    assert (c = d ∧ (rest = ds ∨ rest = ds ++ [10%N])) as [-> Hrest].
    { destruct Hr as [Hr|Hr]; injection Hr as -> ->; auto. }
    split; [done|]. destruct ds as [|d' ds].
    + left. destruct Hrest as [-> | ->]; auto.
    + right. cbn in Hlen. destruct n as [|n]; [lia|]. apply IH.
      exists (d' :: ds). cbn. repeat split; try done; lia.
Qed.

(** X10: what the pattern accepts.  [E164_PATTERN] matches exactly a [+],
    a digit 1 to 9 and one to fourteen decimal digits (of any script),
    optionally followed by one newline: an accepted number has 3 to 17
    characters. *)
Theorem E164_PATTERN_match_iff s :
  E164_PATTERN_match s = true ↔
  ∃ d ds, (s = 43%N :: d :: ds ∨ s = 43%N :: d :: ds ++ [10%N]) ∧
          is_1_9 d = true ∧ 1 ≤ length ds ≤ 14 ∧ forallb is_digit ds = true.
Proof.
  destruct s as [|plus [|d rest]].
  - split; [done|]. by intros (d & ds & [?|?] & _).
  - split; [done|]. by intros (d & ds & [?|?] & _).
  - cbn [E164_PATTERN_match]. rewrite !andb_true_iff, N.eqb_eq, digits_then_end_iff.
    split.
    + intros [[-> Hd] (ds & Hr & Hlen & Hds)]. exists d, ds.
      split; [destruct Hr as [-> | ->]; auto|]. by split.
    + intros (d' & ds & Hs & Hd & Hlen & Hds).
      assert (plus = 43%N ∧ d = d' ∧ (rest = ds ∨ rest = ds ++ [10%N]))
        as (-> & -> & Hrest).
      { destruct Hs as [Hs|Hs]; injection Hs as -> -> ->; auto. }
      split; [done|]. by exists ds.
Qed.

End PatternProperties.

(** ** [app/api/messages.py]: pages *)

Lemma take_add_drop {A} (l : list A) a b : take (a + b) l = take a l ++ take b (drop a l).
Proof.
  revert l. induction a as [|a IH]; intros l; [done|].
  destruct l as [|x l]; cbn; [by rewrite take_nil|]. by rewrite IH.
Qed.



(** X12: consecutive pages join.  The page of [limit1] messages at [offset]
    followed by the page of [limit2] messages at [offset + limit1] is the
    page of [limit1 + limit2] messages at [offset], under the same filters. *)
Theorem list_messages_pages_join db limit1 limit2 offset from_ since q :
  (0 ≤ limit1)%Z → (0 ≤ limit2)%Z → (0 ≤ offset)%Z →
  data (list_messages db limit1 offset from_ since q) ++
  data (list_messages db limit2 (offset + limit1) from_ since q) =
  data (list_messages db (limit1 + limit2) offset from_ since q).
Proof.
  intros H1 H2 Ho. rewrite !list_messages_selected. cbn [data].
  unfold page, sql_limit, sql_offset.
  rewrite !(proj2 (Z.ltb_ge _ 0)) by lia.
  rewrite <- fmap_app. f_equal.
  rewrite !Z2Nat.inj_add by lia.
  rewrite <- drop_drop.
  symmetry. apply take_add_drop.
Qed.

Lemma sql_like_underscore rest c s : sql_like (95%N :: rest) (c :: s) = sql_like rest s.
Proof. reflexivity. Qed.

(** A pattern matches the text it is, whatever wildcards it holds. *)
Lemma sql_like_itself p rest s1 s2 :
  lower p = lower s1 → sql_like rest s2 = true → sql_like (p ++ rest) (s1 ++ s2) = true.
Proof.
  revert s1. induction p as [|c p IH]; intros [|c' s1] Hl Hrest; try done.
  rewrite !lower_cons in Hl. injection Hl as Hc Hl. cbn [app].
  destruct (decide (c = 37%N)) as [->|H37].
  { apply sql_like_percent_iff. exists [c'], (s1 ++ s2). split; [done|]. by apply IH. }
  destruct (decide (c = 95%N)) as [->|H95].
  { rewrite sql_like_underscore. by apply IH. }
  rewrite sql_like_literal by done.
  rewrite (like_char_lower _ _ Hc), N.eqb_refl. by apply IH.
Qed.

Lemma ilike_complete q t :
  0%N ∉ q → 0%N ∉ t → contains_ci q t → ilike (Some t) (search_pattern q) = Some true.
Proof.
  intros Hq Ht (pre & post & Hc). unfold ilike, search_pattern. f_equal.
  rewrite !lower_app. change (lower (u "%")) with [37%N].
  rewrite (c_str_id (lower t)) by (by apply lower_no_nul).
  rewrite (c_str_id ([37%N] ++ lower q ++ [37%N])).
  2:{ rewrite !elem_of_app, !list_elem_of_singleton.
      intros [?|[?%lower_no_nul|?]]; done. }
  rewrite Hc. cbn [app]. apply sql_like_percent_iff.
  exists pre, (lower q ++ post). split; [done|].
  apply sql_like_itself; [done|apply sql_like_any].
Qed.

Lemma page_one rows m :
  m ∈ rows → ∃ offset, (0 ≤ offset)%Z ∧ page 1 offset rows = [to_response m].
Proof.
  intros Hm. rewrite <- order_by_Permutation in Hm.
  apply list_elem_of_lookup in Hm as [i Hi]. exists (Z.of_nat i). split; [lia|].
  unfold page, sql_limit, sql_offset. rewrite Nat2Z.id. cbn [Z.ltb Z.compare].
  by rewrite (drop_S _ _ _ Hi).
Qed.

(** X13: a search finds the texts that hold its words.  Whatever characters
    [q] holds, wildcards of [LIKE] included, a stored row whose text contains
    [q] (the case of ASCII letters ignored, and neither with a NUL character)
    is selected by [GET /messages?q=...]: it is the message at some offset of
    the listing. *)
Theorem text_containing_q_is_listed db m t q :
  m ∈ db → text m = Some t → 0%N ∉ q → 0%N ∉ t → contains_ci q t →
  ∃ offset, (0 ≤ offset)%Z ∧
    data (list_messages db 1 offset None None (Some q)) = [to_response m].
Proof.
  intros Hm Ht Hq0 Ht0 Hc.
  destruct (page_one (selected db None None (Some q)) m) as (offset & Ho & Hp).
  { unfold selected. apply list_elem_of_filter. split; [|done].
    split; [done|]. split; [done|]. destruct q as [|c q]; [done|].
    cbn [q_condition]. rewrite Ht. by apply ilike_complete. }
  exists offset. split; [done|]. by rewrite list_messages_selected.
Qed.

Section ListingOfServedTable.
Context `{Runtime}.

Lemma serve_all_primary_key settings calls : primary_key (serve_all settings calls []).
Proof.
  induction calls as [|[now request] calls IH] using rev_ind; [apply NoDup_nil_2|].
  rewrite serve_all_snoc. by apply post_webhook_primary_key.
Qed.

(** X14: a listing never shows a message twice.  After any run of
    [POST /webhook] requests from an empty table, the messages of every page
    of every listing have distinct [message_id]s, and no page holds more
    messages than [total]. *)
Theorem listing_of_served_table_has_no_repeat settings calls limit offset from_ since q :
  let r := list_messages (serve_all settings calls []) limit offset from_ since q in
  NoDup (resp_message_id <$> data r) ∧ length (data r) ≤ total r.
Proof.
  cbn zeta. rewrite list_messages_selected. cbn [data total]. unfold page.
  set (rows := selected _ _ _ _).
  assert (sql_limit limit (sql_offset offset (order_by rows)) `sublist_of` order_by rows)
    as Hsub by (etrans; [apply sql_limit_sublist|apply sql_offset_sublist]).
  split.
  - rewrite <- list_fmap_compose.
    apply (sublist_NoDup _ (message_id <$> order_by rows)); [|by apply fmap_sublist].
    rewrite order_by_Permutation. apply primary_key_selected, serve_all_primary_key.
  - rewrite length_fmap, <- (Permutation_length (order_by_Permutation rows)).
    by apply sublist_length.
Qed.

End ListingOfServedTable.

(** ** [app/api/metrics.py] *)

Lemma counted_snoc key calls c :
  counted key (calls ++ [c]) =
  if decide (counter_key (call_method c) (call_path c) (call_status_code c) = key)
  then counted key calls ++ [c]
  else counted key calls.
Proof.
  unfold counted. rewrite filter_app, filter_cons, filter_nil.
  destruct (decide _); [done|by rewrite app_nil_r].
Qed.

Lemma record_calls_snoc calls c metrics :
  record_calls (calls ++ [c]) metrics = record_call (record_calls calls metrics) c.
Proof. unfold record_calls. by rewrite fold_left_app. Qed.

(** X15: the counters count.  After any run of [record_request] calls from
    the initial store, [http_requests_total] holds a key exactly when some
    call of the run had that method, path and status, and the value under it
    is the number of those calls. *)
Theorem record_request_counts calls key :
  http_requests_total (record_calls calls metrics_init) !! key =
  match counted key calls with
  | [] => None
  | c :: l => Some (Z.of_nat (length (c :: l)))
  end.
Proof.
  induction calls as [|c calls IH] using rev_ind; [done|].
  rewrite record_calls_snoc, counted_snoc. unfold record_call, record_request.
  cbn [http_requests_total]. fold (counter_key (call_method c) (call_path c) (call_status_code c)).
  destruct (decide _) as [<-|Hne].
  - rewrite lookup_insert_eq, IH.
    destruct (counted _ calls) as [|c0 l]; cbn [default app length]; f_equal.
    rewrite length_app. cbn [length id]. lia.
  - by rewrite lookup_insert_ne.
Qed.

Section MiddlewareProperties.
Context `{Runtime}.

Lemma post_webhook_outcome settings now request db :
  (post_webhook settings now request db).1
  = respond (webhook_outcome settings now request db).
Proof.
  unfold post_webhook, webhook_outcome.
  destruct (get_validated_body settings request); [|done].
  by destruct (ingest_message _ _ _).
Qed.

(** The outcomes of [POST /webhook]: the acknowledgement, one of the two
    [HTTPException]s the code raises, or an exception it does not catch. *)
Lemma webhook_outcome_cases settings now request db :
  webhook_outcome settings now request db = Ok (u "ok") ∨
  webhook_outcome settings now request db = Raise invalid_signature ∨
  (∃ d, webhook_outcome settings now request db = Raise (HTTPException 422 d)) ∨
  (∃ e, webhook_outcome settings now request db = Raise (Unhandled e)).
Proof.
  unfold webhook_outcome.
  destruct (get_validated_body settings request) as [validated_body|e] eqn:Hb.
  - unfold ingest_message.
    destruct (json_loads validated_body) as [data|e].
    2:{ destruct e; cbn; eauto 6. }
    destruct (model_validate data) as [message_data|e]; [|cbn; eauto 6].
    destruct (query_by_message_id _ db); [by left|].
    destruct (add_commit _ db) as [db'|e]; [by left|].
    destruct e; cbn; eauto 6.
  - revert Hb. unfold get_validated_body, SignatureValidator_call.
    destruct (truthy _); cbn [negb]; [|intros [= <-]; auto].
    destruct (is_webhook_secret_configured settings); cbn [negb]; [|intros [= <-]; auto].
    destruct (webhook_secret settings); [|intros [= <-]; eauto 6].
    destruct (headers_get _ _); [|intros [= <-]; eauto 6].
    destruct (verify_signature _ _ _) as [[]|e']; cbn; intros [= <-]; eauto 6.
Qed.

(** X16: what the middleware records of [POST /webhook].  The route
    answers 200, 401, 422 or 500.  A request answered 200, 401 or 422 is
    recorded once, under its status and with the difference of the two clock
    readings as duration.  A request answered 500 is not recorded: its
    handler ends with an exception that [dispatch] does not catch, and the
    metrics are left as they were.  A request to [/metrics] is never
    recorded. *)
Theorem dispatch_records_what_is_answered settings now request db start_time end_time
    metrics :
  let response := (post_webhook settings now request db).1 in
  let served :=
    dispatch (u "POST") (u "/webhook") start_time end_time
      (call_next (webhook_outcome settings now request db)) metrics in
  status_code response ∈ [200%Z; 401%Z; 422%Z; 500%Z] ∧
  (if decide (status_code response = 500%Z)
   then (∃ e, served.1 = Raise e) ∧ served.2 = metrics
   else served =
        (Ok response,
         record_request (u "POST") (u "/webhook") (status_code response)
           (end_time - start_time)%float metrics)) ∧
  ∀ method next,
    dispatch method (u "/metrics") start_time end_time next metrics = (next, metrics).
Proof.
  cbn zeta. rewrite post_webhook_outcome. unfold dispatch.
  rewrite (bool_decide_eq_false_2 (u "/webhook" = u "/metrics")) by discriminate.
  split; [|split; [|done]];
    destruct (webhook_outcome_cases settings now request db)
      as [->|[->|[[d ->]|[e ->]]]]; cbn; try done.
  - by left.
  - right. by left.
  - do 2 right. by left.
  - do 3 right. by left.
  - split; [by eexists|done].
Qed.

End MiddlewareProperties.

Lemma split_underscore_None s : 95%N ∉ s → split_underscore s = (s, None).
Proof.
  induction s as [|c s IH]; [done|]. rewrite not_elem_of_cons. intros [Hc Hs].
  cbn. rewrite (proj2 (N.eqb_neq c 95)) by done. by rewrite IH.
Qed.

Lemma split_underscore_Some a b :
  95%N ∉ a → split_underscore (a ++ 95%N :: b) = (a, Some b).
Proof.
  induction a as [|c a IH]; [done|]. rewrite not_elem_of_cons. intros [Hc Ha].
  cbn. rewrite (proj2 (N.eqb_neq c 95)) by done. by rewrite IH.
Qed.

Lemma split_underscore_before s : 95%N ∉ (split_underscore s).1.
Proof.
  induction s as [|c s IH]; cbn; [apply not_elem_of_nil|].
  destruct (c =? 95)%N eqn:Hc; [apply not_elem_of_nil|].
  destruct (split_underscore s) as [before after]. cbn in *.
  apply not_elem_of_cons. split; [|done]. intros <-. by rewrite N.eqb_refl in Hc.
Qed.

Lemma rsplit_underscore_Some a b :
  95%N ∉ b → rsplit_underscore (a ++ 95%N :: b) = (a, Some b).
Proof.
  intros Hb. unfold rsplit_underscore.
  rewrite reverse_app, reverse_cons, <- app_assoc. cbn [app].
  rewrite split_underscore_Some by (by rewrite elem_of_reverse).
  by rewrite !reverse_involutive.
Qed.

Lemma string_of_uint_no_underscore d : 95%N ∉ u (NilEmpty.string_of_uint d).
Proof.
  induction d; cbn; [apply not_elem_of_nil|..];
    (apply not_elem_of_cons; split; [done|assumption]).
Qed.

Lemma str_of_int_no_underscore n : 95%N ∉ str_of_int n.
Proof.
  unfold str_of_int. destruct n as [|p|p]; cbn [Z.to_int NilZero.string_of_int].
  - cbn. apply not_elem_of_cons. split; [done|apply not_elem_of_nil].
  - unfold NilZero.string_of_uint. destruct (Pos.to_uint p) eqn:Hp;
      try (rewrite <- Hp; apply string_of_uint_no_underscore).
    cbn. apply not_elem_of_cons. split; [done|apply not_elem_of_nil].
  - cbn [u]. apply not_elem_of_cons. split; [done|].
    unfold NilZero.string_of_uint. destruct (Pos.to_uint p) eqn:Hp;
      try (rewrite <- Hp; apply string_of_uint_no_underscore).
    cbn. apply not_elem_of_cons. split; [done|apply not_elem_of_nil].
Qed.

(** X17: the labels of the report.  From the key [record_request] builds,
    [generate_prometheus_metrics] reads back the method, the path and the
    status of the request exactly when the method holds no underscore: the
    path may hold any, and a method with an underscore is cut at its first
    one.  The same holds of the keys of the durations. *)
Theorem report_labels_round_trip method path status_code :
  (counter_labels (counter_key method path status_code)
   = Some (method, path, str_of_int status_code) ↔ 95%N ∉ method) ∧
  (duration_labels (duration_key method path) = (method, path) ↔ 95%N ∉ method).
Proof.
  unfold counter_labels, counter_key, duration_labels, duration_key.
  change (u "_") with [95%N].
  replace (method ++ [95%N] ++ path ++ [95%N] ++ str_of_int status_code)
    with ((method ++ [95%N] ++ path) ++ 95%N :: str_of_int status_code)
    by (by rewrite <- !app_assoc).
  rewrite rsplit_underscore_Some by apply str_of_int_no_underscore.
  pose proof (split_underscore_before (method ++ [95%N] ++ path)) as Hbefore.
  split; (split;
    [destruct (split_underscore _) as [before after]; cbn in Hbefore;
     by intros [= <- _]
    |intros Hm; cbn [app]; by rewrite split_underscore_Some]).
Qed.

(** ** [app/api/health.py] *)

Section HealthProperties.
Context `{Runtime}.

(** X18: readiness and the webhook.  [/health/ready] answers 200 when the
    database is reachable and a secret is configured, and 503 otherwise;
    with the database reachable it answers 503 exactly when the service
    refuses every [POST /webhook] with 401, whatever its signature. *)
Theorem readiness_and_webhook settings :
  (∀ db_ok, (readiness settings db_ok).1 =
            if db_ok && is_webhook_secret_configured settings then 200%Z else 503%Z) ∧
  ((readiness settings true).1 = 503%Z ↔
   ∀ now request db, post_webhook settings now request db = (unauthorized, db)).
Proof.
  assert (∀ db_ok, (readiness settings db_ok).1 =
            if db_ok && is_webhook_secret_configured settings then 200%Z else 503%Z)
    as Hcode.
  { intros db_ok. unfold readiness.
    by destruct db_ok, (is_webhook_secret_configured settings). }
  split; [done|]. rewrite Hcode. cbn [andb].
  destruct (is_webhook_secret_configured settings) eqn:Hconf.
  - split; [done|]. intros Hall.
    apply configured_Some in Hconf as (secret & Hsec & Hne).
    specialize (Hall 0%Z {| headers := [(u "X-Signature", [233%N])]; body := [] |} []).
    by rewrite (non_ascii_signature_response _ secret _ [233%N]) in Hall.
  - split; [|done]. intros _ now request db.
    apply authentication_failure_response. by right; left.
Qed.

End HealthProperties.

(** ** [app/api/stats.py] *)

Global Instance count_ge_trans : Transitive count_ge.
Proof. unfold count_ge. intros a b c. lia. Qed.

Global Instance count_ge_total : Total count_ge.
Proof. unfold count_ge. intros a b. lia. Qed.

Lemma length_remove_dups (l : list str) : length (remove_dups l) ≤ length l.
Proof. induction l as [|x l IH]; cbn; [done|]. case_decide; cbn; lia. Qed.

Lemma sum_list_Permutation l1 l2 : l1 ≡ₚ l2 → sum_list l1 = sum_list l2.
Proof. induction 1; cbn; lia. Qed.

Lemma sum_list_take n l : sum_list (take n l) ≤ sum_list l.
Proof. revert n. induction l as [|x l IH]; intros [|n]; cbn; try lia. specialize (IH n). lia. Qed.

Lemma sum_list_indicator (a : str) ss :
  NoDup ss → a ∈ ss → sum_list ((λ s, if decide (a = s) then 1 else 0) <$> ss) = 1.
Proof.
  induction 1 as [|s ss Hs Hnd IH]; [by intros ?%elem_of_nil|].
  rewrite elem_of_cons. cbn. intros Ha. destruct (decide (a = s)) as [->|Hne].
  - rewrite (sum_list_fmap_same 0); [lia|].
    apply Forall_forall. intros s' Hs'. destruct (decide (s = s')) as [->|]; done.
  - destruct Ha as [?|Ha]; [done|]. by rewrite IH.
Qed.

(** The counts of the groups add up to the number of rows. *)
Lemma sum_list_group_by_sender db :
  sum_list (snd <$> group_by_sender db) = length db.
Proof.
  unfold group_by_sender. rewrite <- list_fmap_compose.
  assert (∀ ss, NoDup ss → (∀ m, m ∈ db → sender m ∈ ss) →
    sum_list ((λ s, length (filter (λ m, sender m = s) db)) <$> ss) = length db) as Hsum.
  { intros ss Hnd. induction db as [|m db IH]; intros Hall.
    - rewrite (sum_list_fmap_same 0); [cbn; lia|]. by apply Forall_forall.
    - assert (sum_list ((λ s, length (filter (λ m', sender m' = s) (m :: db))) <$> ss)
              = sum_list ((λ s, if decide (sender m = s) then 1 else 0) <$> ss)
                + sum_list ((λ s, length (filter (λ m', sender m' = s) db)) <$> ss))
        as ->.
      { clear. induction ss as [|s ss IHs]; [done|].
        cbn [fmap list_fmap sum_list] in *. rewrite filter_cons.
        destruct (decide (sender m = s)); cbn [length id]; lia. }
      rewrite IH by (intros m' Hm'; apply Hall; by right).
      rewrite (sum_list_indicator (sender m) ss Hnd) by (apply Hall; by left).
      done. }
  apply Hsum; [apply NoDup_remove_dups|].
  intros m Hm. apply elem_of_remove_dups. by apply list_elem_of_fmap_2.
Qed.

Lemma group_by_sender_senders db :
  fst <$> group_by_sender db = remove_dups (sender <$> db).
Proof.
  unfold group_by_sender. rewrite <- list_fmap_compose. apply list_fmap_id.
Qed.

Lemma group_by_sender_count db e :
  e ∈ group_by_sender db →
  e.2 = length (filter (λ m, sender m = e.1) db) ∧ 1 ≤ e.2 ∧ ∃ m, m ∈ db ∧ sender m = e.1.
Proof.
  unfold group_by_sender. intros (s & -> & Hs)%list_elem_of_fmap. cbn.
  apply elem_of_remove_dups, list_elem_of_fmap in Hs as (m & -> & Hm).
  split; [done|]. split; [|by exists m].
  assert (m ∈ filter (λ m', sender m' = sender m) db) as Hin
    by (by apply list_elem_of_filter).
  destruct (filter _ db); [by apply elem_of_nil in Hin|cbn; lia].
Qed.

(** X19: the figures of [GET /stats] agree.  There are no more senders than
    messages, and none only on an empty table; [messages_per_sender] lists
    ten senders, or all of them when there are fewer; its counts add up to at
    most [total_messages], and to [total_messages] when every sender is
    listed. *)
Theorem get_stats_figures db :
  let r := get_stats db in
  senders_count r ≤ total_messages r ∧
  (senders_count r = 0 ↔ db = []) ∧
  length (messages_per_sender r) = 10 `min` senders_count r ∧
  sum_list (sender_count <$> messages_per_sender r) ≤ total_messages r ∧
  (senders_count r ≤ 10 →
   sum_list (sender_count <$> messages_per_sender r) = total_messages r).
Proof.
  cbn zeta. unfold get_stats.
  cbn [total_messages senders_count messages_per_sender].
  rewrite <- list_fmap_compose.
  change (sender_count ∘ _) with (@snd str nat).
  set (sorted := merge_sort count_ge (group_by_sender db)).
  assert (sorted ≡ₚ group_by_sender db) as Hperm by apply merge_sort_Permutation.
  assert (length sorted = length (remove_dups (sender <$> db))) as Hlen.
  { by rewrite Hperm, <- group_by_sender_senders, length_fmap. }
  assert (sum_list (snd <$> sorted) = length db) as Hsum.
  { rewrite <- sum_list_group_by_sender. apply sum_list_Permutation. by rewrite Hperm. }
  split; [|split; [|split; [|split]]].
  - etrans; [apply length_remove_dups|]. by rewrite length_fmap.
  - split.
    + destruct db as [|m db]; [done|]. intros Hz.
      assert (sender m ∈ remove_dups (sender <$> m :: db)) as Hin
        by (apply elem_of_remove_dups; by left).
      destruct (remove_dups _); [by apply elem_of_nil in Hin|done].
    + by intros ->.
  - by rewrite length_fmap, length_take, Hlen.
  - rewrite <- Hsum, fmap_take. apply sum_list_take.
  - intros Hten. rewrite take_ge by lia. done.
Qed.

(** X20: the senders [GET /stats] lists.  No sender is listed twice; each
    is listed with the number of its stored messages, which is at least one;
    the counts never increase down the list; and a sender that is not listed
    has no more messages than any sender that is. *)
Theorem get_stats_top_senders db :
  let listed := messages_per_sender (get_stats db) in
  let messages_of s := length (filter (λ m, sender m = s) db) in
  NoDup (sender_from_ <$> listed) ∧
  Forall (λ e, sender_count e = messages_of (sender_from_ e) ∧ 1 ≤ sender_count e) listed ∧
  StronglySorted (λ e1 e2, sender_count e2 ≤ sender_count e1) listed ∧
  ∀ m, m ∈ db → (sender m ∉ sender_from_ <$> listed) →
       Forall (λ e, messages_of (sender m) ≤ sender_count e) listed.
Proof.
  cbn zeta. unfold get_stats. cbn [messages_per_sender].
  set (sorted := merge_sort count_ge (group_by_sender db)).
  set (entry := λ row : str * nat, {| sender_from_ := row.1; sender_count := row.2 |}).
  assert (sorted ≡ₚ group_by_sender db) as Hperm by apply merge_sort_Permutation.
  assert (StronglySorted count_ge sorted) as Hsorted
    by (apply StronglySorted_merge_sort; apply _).
  assert (sender_from_ <$> (entry <$> take 10 sorted) = fst <$> take 10 sorted) as Hfst
    by (by rewrite <- list_fmap_compose).
  split; [|split; [|split]].
  - rewrite Hfst.
    apply (sublist_NoDup _ (fst <$> sorted)); [|apply fmap_sublist, sublist_take].
    rewrite Hperm, group_by_sender_senders. apply NoDup_remove_dups.
  - apply Forall_fmap, Forall_forall. intros e He. cbn.
    assert (e ∈ group_by_sender db) as Hin.
    { rewrite <- Hperm. by apply (elem_of_sublist _ _ _ He), sublist_take. }
    by destruct (group_by_sender_count _ _ Hin) as (? & ? & _).
  - apply (StronglySorted_fmap entry count_ge); [done|].
    apply (StronglySorted_sublist _ _ sorted); [apply sublist_take|done].
  - intros m Hm Hnot. rewrite Hfst in Hnot. apply Forall_fmap, Forall_forall.
    intros e He. cbn.
    set (x := (sender m, length (filter (λ m', sender m' = sender m) db))).
    assert (x ∈ sorted) as Hx.
    { rewrite Hperm. unfold group_by_sender.
      apply list_elem_of_fmap. exists (sender m). split; [done|].
      apply elem_of_remove_dups. by apply list_elem_of_fmap_2. }
    rewrite <- (take_drop 10 sorted) in Hx, Hsorted.
    apply elem_of_app in Hx as [Hx|Hx].
    + destruct Hnot. by apply (list_elem_of_fmap_2 fst) in Hx.
    + apply (StronglySorted_app_1_elem_of _ _ _ e x Hsorted He Hx).
Qed.

Lemma foldr_min_spec x l :
  foldr Z.min x l ∈ x :: l ∧ Forall (λ y, (foldr Z.min x l ≤ y)%Z) (x :: l).
Proof.
  induction l as [|y l [IHin IHle]]; cbn [foldr].
  - split; [by left|]. by constructor.
  - inversion_clear IHle as [|? ? Hx Hl]. split.
    + destruct (Z.min_spec y (foldr Z.min x l)) as [[_ ->]|[_ ->]].
      * right. by left.
      * apply elem_of_cons in IHin as [->|?]; [by left|]. by do 2 right.
    + constructor; [lia|]. constructor; [lia|].
      eapply Forall_impl; [done|]. cbn. lia.
Qed.

Lemma foldr_max_spec x l :
  foldr Z.max x l ∈ x :: l ∧ Forall (λ y, (y ≤ foldr Z.max x l)%Z) (x :: l).
Proof.
  induction l as [|y l [IHin IHle]]; cbn [foldr].
  - split; [by left|]. by constructor.
  - inversion_clear IHle as [|? ? Hx Hl]. split.
    + destruct (Z.max_spec y (foldr Z.max x l)) as [[_ ->]|[_ ->]].
      * apply elem_of_cons in IHin as [->|?]; [by left|]. by do 2 right.
      * right. by left.
    + constructor; [lia|]. constructor; [lia|].
      eapply Forall_impl; [done|]. cbn. lia.
Qed.

(** X21: the first and the last timestamp.  On an empty table [GET /stats]
    gives neither; otherwise both are timestamps of stored messages, and the
    timestamp of every stored message lies between them. *)
Theorem get_stats_first_last db :
  match first_message_ts (get_stats db), last_message_ts (get_stats db) with
  | Some first, Some last =>
      (∃ m, m ∈ db ∧ ts m = first) ∧ (∃ m, m ∈ db ∧ ts m = last) ∧
      ∀ m, m ∈ db → (first ≤ ts m ≤ last)%Z
  | None, None => db = []
  | _, _ => False
  end.
Proof.
  unfold get_stats. cbn [first_message_ts last_message_ts].
  destruct db as [|m0 db]; [done|]. rewrite fmap_cons. cbn [sql_min sql_max].
  destruct (foldr_min_spec (ts m0) (ts <$> db)) as [Hmin_in Hmin].
  destruct (foldr_max_spec (ts m0) (ts <$> db)) as [Hmax_in Hmax].
  rewrite <- fmap_cons in Hmin_in, Hmax_in, Hmin, Hmax.
  apply list_elem_of_fmap in Hmin_in as (m1 & Hm1 & Hin1).
  apply list_elem_of_fmap in Hmax_in as (m2 & Hm2 & Hin2).
  split; [by exists m1|]. split; [by exists m2|].
  intros m Hm. rewrite Forall_fmap, Forall_forall in Hmin, Hmax.
  split; [apply (Hmin m Hm)|apply (Hmax m Hm)].
Qed.

(** ** Examples *)

Section FurtherExamples.
Import Fixture.

(** A signature of three characters is not the digest of [m1]. *)
Lemma verify_signature_iff_abc :
  (∃ b, verify_signature TEST_SECRET (encode (dumps m1)) (u "abc") = Ok b) ∧
  (verify_signature TEST_SECRET (encode (dumps m1)) (u "abc") = Ok true ↔
   u "abc" = sign_payload m1).
Proof.
  apply (verify_signature_iff TEST_SECRET (encode (dumps m1)) (sign_payload m1) (u "abc"));
    vm_compute; reflexivity.
Defined.

(** [m1] sent with the signature ["00"]. *)
Lemma refused_request_changes_nothing_wrong_signature :
  post_webhook settings 0 (with_signature (u "00") m1) [row2] = (unauthorized, [row2]).
Proof.
  apply (refused_request_changes_nothing settings (with_signature (u "00") m1) 0 [row2]).
  right; right. exists TEST_SECRET, (sign_payload m1), (u "00").
  split; [reflexivity|]. split; [vm_compute; reflexivity|].
  split; [vm_compute; reflexivity|]. split; [reflexivity|].
  vm_compute. discriminate.
Defined.

(** [m1] sent when its id is stored with other fields. *)
Lemma stored_message_id_wins_m1 :
  post_webhook settings 2000 (signed m1) [row1_other] = (ok_response, [row1_other]).
Proof.
  refine (stored_message_id_wins settings TEST_SECRET (signed m1) (sign_payload m1) m1
            {| req_message_id := u "m1"; req_from_ := u "+919876543210";
               req_to := u "+14155550100"; req_ts := 1736935200000000;
               req_text := Some (u "Hello") |} 2000 [row1_other] _ _ _ _ _ _ _).
  - reflexivity.
  - discriminate.
  - vm_compute. reflexivity.
  - vm_compute. reflexivity.
  - vm_compute. reflexivity.
  - vm_compute. reflexivity.
  - left.
Defined.

(** The body [not json], correctly signed. *)
Lemma unreadable_body_response_not_json :
  post_webhook settings 0 (signed_raw not_json) [row1] =
  ({| status_code := 422; payload := JsonDetail (Literal (u "Invalid JSON")) |}, [row1]).
Proof.
  refine (unreadable_body_response settings TEST_SECRET (signed_raw not_json)
            (sign_raw not_json) JSONDecodeError 0 [row1] _ _ _ _ _).
  - reflexivity.
  - discriminate.
  - vm_compute. reflexivity.
  - vm_compute. reflexivity.
  - vm_compute. reflexivity.
Defined.

(** [m1] ingested into a table that holds [row2], and read back. *)
Lemma ingested_message_is_listed_m1 :
  let db' := (post_webhook settings 1000 (signed m1) [row2]).2 in
  query_by_message_id (u "m1") db' = Some row1 ∧
  total (list_messages db' 50 0 None None None) = 2 ∧
  row1 ∈ selected db' (Some (u "+919876543210")) None None ∧
  to_response row1 ∈ data (list_messages db' 50 0 None None None).
Proof.
  refine (ingested_message_is_listed settings TEST_SECRET (signed m1) (sign_payload m1) m1
            {| req_message_id := u "m1"; req_from_ := u "+919876543210";
               req_to := u "+14155550100"; req_ts := 1736935200000000;
               req_text := Some (u "Hello") |} 1000 [row2] 50 _ _ _ _ _ _ _ _).
  - reflexivity.
  - discriminate.
  - vm_compute. reflexivity.
  - vm_compute. reflexivity.
  - vm_compute. reflexivity.
  - vm_compute. reflexivity.
  - apply (bool_decide_unpack _). vm_compute. reflexivity.
  - cbn. lia.
Defined.

(** Three rows, read one by one and two by two. *)
Lemma list_messages_pages_join_example :
  data (list_messages [row1; row2; row3] 1 0 None None None) ++
  data (list_messages [row1; row2; row3] 2 (0 + 1) None None None) =
  data (list_messages [row1; row2; row3] (1 + 2) 0 None None None).
Proof.
  apply (list_messages_pages_join [row1; row2; row3] 1 2 0 None None None); lia.
Defined.

(** A search for [O W] finds the text [hello world]. *)
Lemma text_containing_q_is_listed_row2 :
  ∃ offset, (0 ≤ offset)%Z ∧
    data (list_messages [row1; row2; row3] 1 offset None None (Some (u "O W")))
    = [to_response row2].
Proof.
  apply (text_containing_q_is_listed [row1; row2; row3] row2 (u "hello world") (u "O W")).
  - right. left.
  - reflexivity.
  - apply (bool_decide_unpack _). vm_compute. reflexivity.
  - apply (bool_decide_unpack _). vm_compute. reflexivity.
  - exists (u "hell"), (u "orld"). vm_compute. reflexivity.
Defined.

End FurtherExamples.
